(** * The frame mixer's tweened transforms and the ffmpeg input pump

    A shallow embedding of [mixer/frame_mixer_device.cpp] and
    [core/producer/ffmpeg/input.cpp].

    Numbers.  A C++ [int] is a [Z] together with the 32-bit wrap-around of
    the additions the code performs ([Int.wrap]).  A C++ [double] is an exact
    rational ([Q]): the statements below are about the arithmetic the code
    asks for, not about binary64 rounding; module [Binary64] re-runs the two
    decisive evaluations on IEEE doubles.

    Collaborators that are not part of the two files (the easing table, the
    transform value types, the image and audio mixers, libavformat) enter as
    parameters: a type class for the transform types, a record of library
    responses for the pump. *)

From Stdlib Require Import ZArith QArith Lia List String Bool.
From Stdlib Require Import PrimFloat.
From stdpp Require Import base option gmap.

Open Scope Z_scope.

(** ** 32-bit signed integers *)

Module Int.

Definition INT_MIN : Z := - 2 ^ 31.
Definition INT_MAX : Z := 2 ^ 31 - 1.

(** Two's complement wrap-around of a mathematical result into [int]. *)
Definition wrap (z : Z) : Z := (z + 2 ^ 31) mod 2 ^ 32 - 2 ^ 31.

Definition in_range (z : Z) : Prop := INT_MIN <= z <= INT_MAX.

(** The same for [int64_t]. *)
Definition wrap64 (z : Z) : Z := (z + 2 ^ 63) mod 2 ^ 64 - 2 ^ 63.

End Int.

(** ** Tweened transforms ([frame_mixer_device.cpp], lines 27-56) *)

(** The constant added to the duration in [fetch]: [0.000001]. *)
Definition epsilon : Q := 1 # 1000000.

(** The easing table of [common/utility/tweener.h], which is not part of the
    two files: the type of an easing function, the lookup by name (which
    fails for an unknown name) and the function the name [linear] denotes. *)
Class Tweeners := {
  tweener_t : Type;
  get_tweener : string -> option tweener_t;
  linear_tweener : tweener_t
}.

(** What the mixer needs of a transform value type [T] ([image_transform],
    [audio_transform]): the default-constructed value [T()], the overload
    [tween(time, source, dest, duration, tweener)], [operator*] and
    [operator!=]. *)
Class Transform `{Tweeners} (T : Type) := {
  transform_default : T;
  tween : Q -> T -> T -> Q -> tweener_t -> T;
  transform_mul : T -> T -> T;
  transform_neq : T -> T -> bool
}.

Section TweenedTransform.
Context `{Tweeners} {T : Type} `{!Transform T}.

Record tweened_transform := mk_tweened {
  source_ : T;
  dest_ : T;
  duration_ : Z;
  time_ : Z;
  tweener_ : tweener_t
}.

(** [tweened_transform()] *)
Definition tweened_default : tweened_transform :=
  {| source_ := transform_default; dest_ := transform_default;
     duration_ := 0; time_ := 0; tweener_ := linear_tweener |}.

(** [tweened_transform(source, dest, duration, tween)]; [None] when
    [get_tweener] rejects the name. *)
Definition tweened_new (source dest : T) (duration : Z) (name : string)
  : option tweened_transform :=
  match get_tweener name with
  | Some tw => Some {| source_ := source; dest_ := dest;
                       duration_ := duration; time_ := 0; tweener_ := tw |}
  | None => None
  end.

Definition fetch (t : tweened_transform) : T :=
  tween (inject_Z (time_ t)) (source_ t) (dest_ t)
        (inject_Z (duration_ t) + epsilon)%Q (tweener_ t).

(** The state part of [fetch_and_tick]: [time_ = min(time_ + num, duration_)]. *)
Definition tick (num : Z) (t : tweened_transform) : tweened_transform :=
  {| source_ := source_ t; dest_ := dest_ t; duration_ := duration_ t;
     time_ := Z.min (Int.wrap (time_ t + num)) (duration_ t);
     tweener_ := tweener_ t |}.

Definition fetch_and_tick (num : Z) (t : tweened_transform)
  : T * tweened_transform :=
  let t' := tick num t in (fetch t', t').

(** [k] successive calls of [fetch_and_tick(num)]. *)
Fixpoint ticks (num : Z) (k : nat) (t : tweened_transform) : tweened_transform :=
  match k with
  | O => t
  | S k' => ticks num k' (tick num t)
  end.

(** The body shared by the [set_*_transform] functions: sample the current
    value, then replace the tween. *)
Definition set_transform (cur : tweened_transform) (transform : T)
    (mix_duration : Z) (name : string) : option tweened_transform :=
  let src := fetch cur in
  let dst := transform in
  tweened_new src dst mix_duration name.

(** The body shared by the [apply_*_transform] functions. *)
Definition apply_transform (cur : tweened_transform) (transform : T -> T)
    (mix_duration : Z) (name : string) : option tweened_transform :=
  let src := fetch cur in
  let dst := transform src in
  tweened_new src dst mix_duration name.

(** The additions of [fetch_and_tick(1)] and [fetch_and_tick(2)] stay inside
    [int], now and after any number of further calls. *)
Definition no_overflow (t : tweened_transform) : Prop :=
  Int.INT_MIN <= time_ t <= Int.INT_MAX - 2 /\
  Int.INT_MIN <= duration_ t <= Int.INT_MAX - 2.

End TweenedTransform.

Arguments tweened_transform {_} T.

(** ** The frame mixer ([frame_mixer_device.cpp], lines 58-276) *)

(** [video_mode] of [core/video_format.h]. *)
Inductive video_mode := progressive | upper | lower.

Definition is_progressive (m : video_mode) : bool :=
  match m with progressive => true | _ => false end.

(** [format_desc_.mode == video_mode::progressive ? 1 : 2] *)
Definition steps (m : video_mode) : Z := if is_progressive m then 1 else 2.

(** A frame handed to [send].  [basic_frame::empty()] and
    [basic_frame::eof()] are two distinguished objects, and the vector is
    cleaned by comparing pointers with them: the tag says which object a
    frame is. *)
Inductive frame_tag := tag_empty | tag_eof | tag_data.

Record basic_frame := {
  frame_tag_of : frame_tag;
  get_layer_index : Z;
  frame_id : nat
}.

Definition is_empty (f : basic_frame) : bool :=
  match frame_tag_of f with tag_empty => true | _ => false end.
Definition is_eof_frame (f : basic_frame) : bool :=
  match frame_tag_of f with tag_eof => true | _ => false end.

(** [frames.erase(std::remove(..., basic_frame::empty()), ...)] followed by
    the same for [basic_frame::eof()]. *)
Definition remove_empty_eof (frames : list basic_frame) : list basic_frame :=
  List.filter (fun f => negb (is_eof_frame f))
    (List.filter (fun f => negb (is_empty f)) frames).

(** [make_safe<basic_frame>(frame)] with the transform the mixer writes into
    it. *)
Record child_frame (X : Type) := mk_child {
  child_of : basic_frame;
  child_transform : X
}.
Arguments mk_child {X}.
Arguments child_of {X}.
Arguments child_transform {X}.

Section Mixer.
Context `{Tweeners} {image_transform audio_transform : Type}
        `{!Transform image_transform} `{!Transform audio_transform}.

(** What [image_mixer_] is given by one [accept]: a child frame, or the
    result of [basic_frame::interlace(frame1, frame2, mode)]. *)
Inductive image_item :=
| single_item (f : child_frame image_transform)
| interlaced_item (f1 f2 : child_frame image_transform) (mode : video_mode).

Record mixer := mk_mixer {
  format_desc_mode : video_mode;
  image_transforms_ : gmap Z (tweened_transform image_transform);
  audio_transforms_ : gmap Z (tweened_transform audio_transform);
  root_image_transform_ : tweened_transform image_transform;
  root_audio_transform_ : tweened_transform audio_transform
}.

(** The constructor leaves both maps empty and both roots default. *)
Definition mixer_new (mode : video_mode) : mixer :=
  {| format_desc_mode := mode;
     image_transforms_ := ∅; audio_transforms_ := ∅;
     root_image_transform_ := tweened_default;
     root_audio_transform_ := tweened_default |}.

Definition with_root_image (t : tweened_transform image_transform) (s : mixer) :=
  mk_mixer (format_desc_mode s) (image_transforms_ s) (audio_transforms_ s)
           t (root_audio_transform_ s).
Definition with_root_audio (t : tweened_transform audio_transform) (s : mixer) :=
  mk_mixer (format_desc_mode s) (image_transforms_ s) (audio_transforms_ s)
           (root_image_transform_ s) t.
Definition with_image_transforms m (s : mixer) :=
  mk_mixer (format_desc_mode s) m (audio_transforms_ s)
           (root_image_transform_ s) (root_audio_transform_ s).
Definition with_audio_transforms m (s : mixer) :=
  mk_mixer (format_desc_mode s) (image_transforms_ s) m
           (root_image_transform_ s) (root_audio_transform_ s).

(** [m[index]] of [std::unordered_map]: a missing entry is
    default-constructed. *)
Definition entry {T} `{!Transform T} (m : gmap Z (tweened_transform T))
    (index : Z) : tweened_transform T :=
  default tweened_default (m !! index).

(** The mixing code threads the mixer through its calls: a state monad,
    written with stdpp's [x ← c; k]. *)
Definition M (A : Type) : Type := mixer -> A * mixer.
#[local] Instance M_ret : MRet M := fun A (a : A) s => (a, s).
#[local] Instance M_bind : MBind M :=
  fun A B (k : A -> M B) (c : M A) s => let (a, s') := c s in k a s'.

(** [root_image_transform_.fetch_and_tick(num)] *)
Definition root_image_fetch_and_tick (num : Z) : M image_transform :=
  fun s => let (v, t) := fetch_and_tick num (root_image_transform_ s) in
           (v, with_root_image t s).

(** [image_transforms_[index].fetch_and_tick(num)] *)
Definition image_fetch_and_tick (index num : Z) : M image_transform :=
  fun s => let (v, t) := fetch_and_tick num (entry (image_transforms_ s) index) in
           (v, with_image_transforms (<[index := t]> (image_transforms_ s)) s).

Definition root_audio_fetch_and_tick (num : Z) : M audio_transform :=
  fun s => let (v, t) := fetch_and_tick num (root_audio_transform_ s) in
           (v, with_root_audio t s).

Definition audio_fetch_and_tick (index num : Z) : M audio_transform :=
  fun s => let (v, t) := fetch_and_tick num (entry (audio_transforms_ s) index) in
           (v, with_audio_transforms (<[index := t]> (audio_transforms_ s)) s).

Definition get_mode : M video_mode := fun s => (format_desc_mode s, s).

(** [root_image_transform_.fetch_and_tick(1) *
     image_transforms_[frame->get_layer_index()].fetch_and_tick(1)] *)
Definition image_evaluation (frame : basic_frame) : M image_transform :=
  r ← root_image_fetch_and_tick 1;
  l ← image_fetch_and_tick (get_layer_index frame) 1;
  mret (transform_mul r l).

(** The body of the loop of [mix_image] (lines 109-127). *)
Definition mix_image_frame (frame : basic_frame) : M image_item :=
  mode ← get_mode;
  if negb (is_progressive mode) then
    t1 ← image_evaluation frame;
    t2 ← image_evaluation frame;
    let frame1 := mk_child frame t1 in
    let frame2 := mk_child frame t2 in
    if transform_neq t1 t2
    then mret (interlaced_item frame1 frame2 mode)
    else mret (single_item frame2)
  else
    t1 ← image_evaluation frame;
    mret (single_item (mk_child frame t1)).

Fixpoint for_each {A B} (body : A -> M B) (l : list A) : M (list B) :=
  match l with
  | [] => mret []
  | a :: l' => b ← body a; bs ← for_each body l'; mret (b :: bs)
  end.

(** [mix_image]: the frames accepted by the image mixer in this pass, in
    order of acceptance. *)
Definition mix_image (frames : list basic_frame) : M (list image_item) :=
  for_each mix_image_frame (remove_empty_eof frames).

(** The body of the loop of [mix_audio] (lines 138-142). *)
Definition mix_audio_frame (frame : basic_frame)
  : M (child_frame audio_transform) :=
  mode ← get_mode;
  let num := steps mode in
  r ← root_audio_fetch_and_tick num;
  l ← audio_fetch_and_tick (get_layer_index frame) num;
  mret (mk_child frame (transform_mul r l)).

Definition mix_audio (frames : list basic_frame)
  : M (list (child_frame audio_transform)) :=
  for_each mix_audio_frame frames.

(** The task queued by [send] (lines 155-157): both passes over the same
    vector; the pair is what is published to the subscribers. *)
Definition send (frames : list basic_frame)
  : M (list image_item * list (child_frame audio_transform)) :=
  image ← mix_image frames;
  audio ← mix_audio frames;
  mret (image, audio).

(** *** The control surface (lines 172-270); [None] is the exception of
    [get_tweener].  A root operation and a reset throw before anything is
    assigned; for the mixer an indexed operation leaves when it throws, see
    the [_call] definitions below. *)

Definition set_image_transform (transform : image_transform)
    (mix_duration : Z) (name : string) (s : mixer) : option mixer :=
  t ← set_transform (root_image_transform_ s) transform mix_duration name;
  Some (with_root_image t s).

Definition set_audio_transform (transform : audio_transform)
    (mix_duration : Z) (name : string) (s : mixer) : option mixer :=
  t ← set_transform (root_audio_transform_ s) transform mix_duration name;
  Some (with_root_audio t s).

Definition set_image_transform_at (index : Z) (transform : image_transform)
    (mix_duration : Z) (name : string) (s : mixer) : option mixer :=
  t ← set_transform (entry (image_transforms_ s) index) transform mix_duration name;
  Some (with_image_transforms (<[index := t]> (image_transforms_ s)) s).

Definition set_audio_transform_at (index : Z) (transform : audio_transform)
    (mix_duration : Z) (name : string) (s : mixer) : option mixer :=
  t ← set_transform (entry (audio_transforms_ s) index) transform mix_duration name;
  Some (with_audio_transforms (<[index := t]> (audio_transforms_ s)) s).

Definition apply_image_transform (transform : image_transform -> image_transform)
    (mix_duration : Z) (name : string) (s : mixer) : option mixer :=
  t ← apply_transform (root_image_transform_ s) transform mix_duration name;
  Some (with_root_image t s).

Definition apply_audio_transform (transform : audio_transform -> audio_transform)
    (mix_duration : Z) (name : string) (s : mixer) : option mixer :=
  t ← apply_transform (root_audio_transform_ s) transform mix_duration name;
  Some (with_root_audio t s).

Definition apply_image_transform_at (index : Z)
    (transform : image_transform -> image_transform)
    (mix_duration : Z) (name : string) (s : mixer) : option mixer :=
  t ← apply_transform (entry (image_transforms_ s) index) transform mix_duration name;
  Some (with_image_transforms (<[index := t]> (image_transforms_ s)) s).

Definition apply_audio_transform_at (index : Z)
    (transform : audio_transform -> audio_transform)
    (mix_duration : Z) (name : string) (s : mixer) : option mixer :=
  t ← apply_transform (entry (audio_transforms_ s) index) transform mix_duration name;
  Some (with_audio_transforms (<[index := t]> (audio_transforms_ s)) s).

(** The mixer a call leaves, whether it returns or throws. *)
Inductive call_result := returns (s' : mixer) | throws (s' : mixer).

(** [image_transforms_[index]] and [audio_transforms_[index]] as
    expressions: [operator[]] default-constructs a missing entry and
    inserts it. *)
Definition touch_image (index : Z) (s : mixer) : mixer :=
  with_image_transforms
    (<[index := entry (image_transforms_ s) index]> (image_transforms_ s)) s.
Definition touch_audio (index : Z) (s : mixer) : mixer :=
  with_audio_transforms
    (<[index := entry (audio_transforms_ s) index]> (audio_transforms_ s)) s.

(** The four indexed operations statement by statement (lines 196-198,
    206-208, 236-238, 246-248): the first statement evaluates
    [m[index].fetch()], which inserts a missing entry; the constructor of
    the last statement throws on an unknown name, after that insertion and
    before the assignment.  [set_image_transform_at] and its three siblings
    above give the mixer of a call that returns; these give the mixer left
    in both cases. *)
Definition set_image_transform_at_call (index : Z) (transform : image_transform)
    (mix_duration : Z) (name : string) (s : mixer) : call_result :=
  let s1 := touch_image index s in
  let src := fetch (entry (image_transforms_ s1) index) in
  let dst := transform in
  match tweened_new src dst mix_duration name with
  | Some t => returns (with_image_transforms (<[index := t]> (image_transforms_ s1)) s1)
  | None => throws s1
  end.

Definition set_audio_transform_at_call (index : Z) (transform : audio_transform)
    (mix_duration : Z) (name : string) (s : mixer) : call_result :=
  let s1 := touch_audio index s in
  let src := fetch (entry (audio_transforms_ s1) index) in
  let dst := transform in
  match tweened_new src dst mix_duration name with
  | Some t => returns (with_audio_transforms (<[index := t]> (audio_transforms_ s1)) s1)
  | None => throws s1
  end.

Definition apply_image_transform_at_call (index : Z)
    (transform : image_transform -> image_transform)
    (mix_duration : Z) (name : string) (s : mixer) : call_result :=
  let s1 := touch_image index s in
  let src := fetch (entry (image_transforms_ s1) index) in
  let dst := transform src in
  match tweened_new src dst mix_duration name with
  | Some t => returns (with_image_transforms (<[index := t]> (image_transforms_ s1)) s1)
  | None => throws s1
  end.

Definition apply_audio_transform_at_call (index : Z)
    (transform : audio_transform -> audio_transform)
    (mix_duration : Z) (name : string) (s : mixer) : call_result :=
  let s1 := touch_audio index s in
  let src := fetch (entry (audio_transforms_ s1) index) in
  let dst := transform src in
  match tweened_new src dst mix_duration name with
  | Some t => returns (with_audio_transforms (<[index := t]> (audio_transforms_ s1)) s1)
  | None => throws s1
  end.

(** The mixer of a call that returns. *)
Definition returned (r : call_result) : option mixer :=
  match r with returns s' => Some s' | throws _ => None end.

(** [reset_image_transform] and [reset_audio_transform] (lines 252-270):
    every entry of the map, then the root, is replaced by a tween from the
    value it shows to the default-constructed transform.  Each replacement
    looks the name up; an unknown name throws at the first one, before
    anything is assigned. *)
Definition reset_image_transform (mix_duration : Z) (name : string)
    (s : mixer) : option mixer :=
  tw ← get_tweener name;
  let reset (t : tweened_transform image_transform) :=
    mk_tweened (fetch t) transform_default mix_duration 0 tw in
  Some (with_root_image (reset (root_image_transform_ s))
          (with_image_transforms (reset <$> image_transforms_ s) s)).

Definition reset_audio_transform (mix_duration : Z) (name : string)
    (s : mixer) : option mixer :=
  tw ← get_tweener name;
  let reset (t : tweened_transform audio_transform) :=
    mk_tweened (fetch t) transform_default mix_duration 0 tw in
  Some (with_root_audio (reset (root_audio_transform_ s))
          (with_audio_transforms (reset <$> audio_transforms_ s) s)).

(** The part of the mixer the audio pass reads and writes. *)
Definition audio_side (s : mixer) :=
  (format_desc_mode s, root_audio_transform_ s, audio_transforms_ s).

(** The part of the mixer the image pass reads and writes. *)
Definition image_side (s : mixer) :=
  (format_desc_mode s, root_image_transform_ s, image_transforms_ s).

(** The frame of the vector an accepted item was made from. *)
Definition item_frame (i : image_item) : basic_frame :=
  match i with
  | single_item c => child_of c
  | interlaced_item c1 _ _ => child_of c1
  end.

Definition is_interlaced_item (i : image_item) : bool :=
  match i with single_item _ => false | interlaced_item _ _ _ => true end.

End Mixer.

Arguments mixer {_} image_transform audio_transform.
Arguments image_item : clear implicits.

(** ** The input pump ([core/producer/ffmpeg/input.cpp]) *)

Module Input.

(** *** The data of libavformat the code reads and writes *)

Record AVRational := mk_rational { num : Z; den : Z }.

Record AVCodecContext := mk_codec_context {
  codec_type : Z;
  codec_id : Z;
  time_base : AVRational
}.

Record AVStream := mk_stream {
  index : Z;
  codec : AVCodecContext
}.

Definition aligned_buffer : Type := list Byte.byte.

Record AVPacket := mk_packet {
  stream_index : Z;
  data : aligned_buffer
}.

Definition CODEC_TYPE_VIDEO : Z := 0.
Definition CODEC_TYPE_AUDIO : Z := 1.
Definition AVSEEK_FLAG_BACKWARD : Z := 1.
Definition AV_TIME_BASE : Z := 1000000.
Definition TIME_BASE_Q : AVRational := mk_rational 1 AV_TIME_BASE.
Definition PACKET_BUFFER_COUNT : Z := 50.

(** The responses of libavformat and libavcodec.  [C] is what the library
    keeps behind an [AVFormatContext*]; a call that moves the read position
    returns the new [C].  Every function returns the C return code. *)
Record libav (C : Type) := {
  av_open_input_file : string -> Z * C;
  av_find_stream_info : C -> Z * C;
  (** [format_context_->streams], [nb_streams] entries, null allowed *)
  streams : C -> list (option AVStream);
  (** [format_context_->streams[i]->time_base] *)
  stream_time_base : C -> Z -> AVRational;
  (** whether [avcodec_find_decoder(codec_id)] is non-null *)
  avcodec_find_decoder : Z -> bool;
  avcodec_open : AVCodecContext -> Z;
  av_read_frame : C -> Z * AVPacket * C;
  (** stream index, target, flags *)
  av_seek_frame : C -> Z -> Z -> Z -> Z * C;
  av_rescale_q : Z -> AVRational -> AVRational -> Z
}.
Arguments av_open_input_file {C}.
Arguments av_find_stream_info {C}.
Arguments streams {C}.
Arguments stream_time_base {C}.
Arguments avcodec_find_decoder {C}.
Arguments avcodec_open {C}.
Arguments av_read_frame {C}.
Arguments av_seek_frame {C}.
Arguments av_rescale_q {C}.

(** *** Outcomes of code that can throw *)

Inductive exception := file_read_error (msg : string).

(** [Undefined]: the C++ standard gives the evaluation no meaning.
    [Unspecified]: the evaluation has a result, but which one depends on how
    the floating-point library rounds, and the embedding does not say. *)
Inductive outcome (A : Type) :=
| Returned (a : A)
| Thrown (e : exception)
| Undefined
| Unspecified.
Arguments Returned {A}.
Arguments Thrown {A}.
Arguments Undefined {A}.
Arguments Unspecified {A}.

(** *** [fix_time_base] (lines 124-128) *)

Fixpoint ilog10_fuel (fuel : nat) (n : Z) : Z :=
  match fuel with
  | O => 0
  | S fuel' => if n <? 10 then 0 else 1 + ilog10_fuel fuel' (n / 10)
  end.

(** The largest denominator for which the single-precision logarithm is
    known to truncate to the exact integer part. *)
Definition LOG10_EXACT_MAX : Z := 999999.

(** [static_cast<int>(std::log10(static_cast<float>(den)))].  The code
    takes the logarithm in single precision.  A [den] of at most six digits
    is a [float] exactly, and its logarithm lies further below the next
    integer than half the spacing of the floats there, so that a correctly
    rounded [log10] stays below that integer and the cast yields the exact
    integer part, computed here on the digits.  A longer [den] may be
    rounded by the conversion to [float], and its logarithm may round up to
    the next integer (as for 9999999): the result is left [Unspecified].
    For [den <= 0] the logarithm is minus infinity or NaN and its conversion
    to [int] is undefined. *)
Definition log10_trunc (den : Z) : outcome Z :=
  if den <=? 0 then Undefined
  else if den <=? LOG10_EXACT_MAX then Returned (ilog10_fuel 10 den)
  else Unspecified.

(** [static_cast<int>(std::pow(10.0, e))]: a negative exponent gives a value
    below one, which the cast truncates to zero. *)
Definition pow10_trunc (e : Z) : Z := if e <? 0 then 0 else 10 ^ e.

Definition fix_time_base (context : option AVCodecContext)
  : outcome (option AVCodecContext) :=
  match context with
  | Some c =>
      if num (time_base c) =? 1 then
        match log10_trunc (den (time_base c)) with
        | Returned k =>
            Returned (Some (mk_codec_context (codec_type c) (codec_id c)
                        (mk_rational (pow10_trunc (k - 1)) (den (time_base c)))))
        | Thrown e => Thrown e
        | Undefined => Undefined
        | Unspecified => Unspecified
        end
      else Returned context
  | None => Returned context
  end.

(** *** The object *)

(** [common/concurrency/executor.h] is not part of the file: the executor is
    its running flag and the number of queued tasks. *)
Record executor := mk_executor { is_running : bool; pending : nat }.

Inductive diag_event :=
| diag_tag (name : string)
| diag_update (name : string) (value : Q).

Record implementation (C : Type) := mk_impl {
  graph_ : list diag_event;          (* newest first *)
  format_context_ : C;
  video_codec_context_ : option AVCodecContext;
  audio_codex_context_ : option AVCodecContext;
  loop_ : bool;
  video_s_index_ : Z;
  audio_s_index_ : Z;
  video_packet_buffer_ : list aligned_buffer;   (* head = front *)
  audio_packet_buffer_ : list aligned_buffer;
  cond_ : nat;                       (* calls of [notify_all] so far *)
  executor_ : executor
}.
Arguments mk_impl {C}.
Arguments graph_ {C}.
Arguments format_context_ {C}.
Arguments video_codec_context_ {C}.
Arguments audio_codex_context_ {C}.
Arguments loop_ {C}.
Arguments video_s_index_ {C}.
Arguments audio_s_index_ {C}.
Arguments video_packet_buffer_ {C}.
Arguments audio_packet_buffer_ {C}.
Arguments cond_ {C}.
Arguments executor_ {C}.

(** A stream entry that [open_stream] passes over when it looks for [type]:
    a null entry, or a stream of another type. *)
Definition not_of_type (type : Z) (x : option AVStream) : Prop :=
  match x with
  | Some st => codec_type (codec st) <> type
  | None => True
  end.

#[local] Instance outcome_ret : MRet outcome := fun A (a : A) => Returned a.
#[local] Instance outcome_bind : MBind outcome :=
  fun A B (k : A -> outcome B) (c : outcome A) =>
    match c with
    | Returned a => k a
    | Thrown e => Thrown e
    | Undefined => Undefined
    | Unspecified => Unspecified
    end.

Section Pump.
Context {C : Type} (lib : libav C).

Abbreviation impl := (implementation C).

Definition with_graph g (s : impl) : impl :=
  mk_impl g (format_context_ s) (video_codec_context_ s) (audio_codex_context_ s)
    (loop_ s) (video_s_index_ s) (audio_s_index_ s)
    (video_packet_buffer_ s) (audio_packet_buffer_ s) (cond_ s) (executor_ s).
Definition with_format_context c (s : impl) : impl :=
  mk_impl (graph_ s) c (video_codec_context_ s) (audio_codex_context_ s)
    (loop_ s) (video_s_index_ s) (audio_s_index_ s)
    (video_packet_buffer_ s) (audio_packet_buffer_ s) (cond_ s) (executor_ s).
Definition with_video_buffer b (s : impl) : impl :=
  mk_impl (graph_ s) (format_context_ s) (video_codec_context_ s)
    (audio_codex_context_ s) (loop_ s) (video_s_index_ s) (audio_s_index_ s)
    b (audio_packet_buffer_ s) (cond_ s) (executor_ s).
Definition with_audio_buffer b (s : impl) : impl :=
  mk_impl (graph_ s) (format_context_ s) (video_codec_context_ s)
    (audio_codex_context_ s) (loop_ s) (video_s_index_ s) (audio_s_index_ s)
    (video_packet_buffer_ s) b (cond_ s) (executor_ s).
Definition with_cond n (s : impl) : impl :=
  mk_impl (graph_ s) (format_context_ s) (video_codec_context_ s)
    (audio_codex_context_ s) (loop_ s) (video_s_index_ s) (audio_s_index_ s)
    (video_packet_buffer_ s) (audio_packet_buffer_ s) n (executor_ s).
Definition with_executor e (s : impl) : impl :=
  mk_impl (graph_ s) (format_context_ s) (video_codec_context_ s)
    (audio_codex_context_ s) (loop_ s) (video_s_index_ s) (audio_s_index_ s)
    (video_packet_buffer_ s) (audio_packet_buffer_ s) (cond_ s) e.

(** [executor_.start()], [executor_.stop()], [executor_.begin_invoke(...)] *)
Definition executor_start (e : executor) := mk_executor true (pending e).
Definition executor_stop (e : executor) := mk_executor false (pending e).
Definition executor_begin_invoke (e : executor) :=
  mk_executor (is_running e) (S (pending e)).

(** [(errn = -rc) > 0] on [int]. *)
Definition failed (rc : Z) : bool := 0 <? Int.wrap (- rc).

(** [open_stream] (lines 130-149): the codec context, and [s_index] as the
    call leaves it. *)
Definition open_stream (c : C) (type s_index : Z)
  : option AVCodecContext * Z :=
  match List.find (fun st => match st with
                             | Some st' => codec_type (codec st') =? type
                             | None => false
                             end) (streams lib c) with
  | Some (Some stream) =>
      let s_index := index stream in
      if negb (avcodec_find_decoder lib (codec_id (codec stream)))
      then (None, s_index)
      else if failed (avcodec_open lib (codec stream))
      then (None, s_index)
      else (Some (codec stream), s_index)
  | _ => (None, s_index)
  end.

(** [!context] on a [shared_ptr]. *)
Definition is_null {A} (p : option A) : bool :=
  if p is Some _ then false else true.

(** The constructor (lines 60-114). *)
Definition construct (graph : list diag_event) (filename : string)
    (loop : bool) : outcome impl :=
  let (rc, c) := av_open_input_file lib filename in
  if failed rc then Thrown (file_read_error "No format context found.") else
  let (rc, c) := av_find_stream_info lib c in
  if failed rc then Thrown (file_read_error "No stream found.") else
  let (video, video_s_index) := open_stream c CODEC_TYPE_VIDEO (-1) in
  video ← (if video is Some _ then fix_time_base video else Returned video);
  let (audio, audio_s_index) := open_stream c CODEC_TYPE_AUDIO (-1) in
  video ← (if audio is Some _ then fix_time_base video else Returned video);
  if is_null video && is_null audio
  then Thrown (file_read_error "No video or audio codec context found.")
  else Returned
    (mk_impl graph c video audio loop video_s_index audio_s_index [] [] 0%nat
       (executor_begin_invoke (executor_start (mk_executor false 0)))).

(** [seek_frame] (lines 179-193): the result, and the object after the
    library call. *)
Definition seek_frame (seek_target flags : Z) (s : impl) : bool * impl :=
  let stream_index := Z.max (video_s_index_ s) (audio_s_index_ s) in
  let seek_target := Int.wrap64 (seek_target * AV_TIME_BASE) in
  let seek_target :=
    if 0 <=? stream_index
    then av_rescale_q lib seek_target TIME_BASE_Q
           (stream_time_base lib (format_context_ s) stream_index)
    else seek_target in
  let (rc, c) := av_seek_frame lib (format_context_ s) stream_index seek_target flags in
  let result := 0 <=? rc in
  (result, with_format_context c s).

(** [video_packet_buffer_.size() / PACKET_BUFFER_COUNT] as the graph shows it. *)
Definition input_buffer_level (s : impl) : Q :=
  (inject_Z (Z.of_nat (length (video_packet_buffer_ s))) / inject_Z PACKET_BUFFER_COUNT)%Q.

(** The condition of the [while] around [cond_.wait(lock)] (line 175). *)
Definition must_wait (s : impl) : bool :=
  is_running (executor_ s)
  && (PACKET_BUFFER_COUNT <? Z.of_nat (length (audio_packet_buffer_ s)))
  && (PACKET_BUFFER_COUNT <? Z.of_nat (length (video_packet_buffer_ s))).

(** One run of [read_file] (lines 151-177), up to the wait. *)
Definition read_file (s : impl) : impl :=
  let '(rc, read_packet, c) := av_read_frame lib (format_context_ s) in
  let s := with_format_context c s in
  let s :=
    if 0 <=? rc then
      let packet := data read_packet in
      if stream_index read_packet =? video_s_index_ s
      then with_video_buffer (video_packet_buffer_ s ++ [packet]) s
      else if stream_index read_packet =? audio_s_index_ s
      then with_audio_buffer (audio_packet_buffer_ s ++ [packet]) s
      else s
    else
      (* [!loop_ || !seek_frame(0, AVSEEK_FLAG_BACKWARD)], left to right *)
      let (stop, s) :=
        if negb (loop_ s) then (true, s)
        else let (result, s') := seek_frame 0 AVSEEK_FLAG_BACKWARD s in
             (negb result, s') in
      if stop
      then with_executor (executor_stop (executor_ s)) s
      else with_graph (diag_tag "seek" :: graph_ s) s in
  let s := with_graph (diag_update "input-buffer" (input_buffer_level s) :: graph_ s) s in
  with_executor (executor_begin_invoke (executor_ s)) s.

Inductive which_buffer := video_buffer | audio_buffer.

Definition buffer_of (b : which_buffer) (s : impl) : list aligned_buffer :=
  match b with
  | video_buffer => video_packet_buffer_ s
  | audio_buffer => audio_packet_buffer_ s
  end.

Definition other (b : which_buffer) : which_buffer :=
  match b with video_buffer => audio_buffer | audio_buffer => video_buffer end.

Definition with_buffer (b : which_buffer) (q : list aligned_buffer) (s : impl) : impl :=
  match b with
  | video_buffer => with_video_buffer q s
  | audio_buffer => with_audio_buffer q s
  end.

(** [get_packet] (lines 205-210): notify, then [try_pop]. *)
Definition get_packet (b : which_buffer) (s : impl) : aligned_buffer * impl :=
  let s := with_cond (S (cond_ s)) s in
  match buffer_of b s with
  | packet :: rest => (packet, with_buffer b rest s)
  | [] => ([], s)
  end.

Definition get_video_packet := get_packet video_buffer.
Definition get_audio_packet := get_packet audio_buffer.

(** [buffer.empty()] *)
Definition queue_empty {A} (q : list A) : bool :=
  match q with [] => true | _ => false end.

Definition is_eof (s : impl) : bool :=
  negb (is_running (executor_ s))
  && queue_empty (video_packet_buffer_ s)
  && queue_empty (audio_packet_buffer_ s).

(** The two statements of [get_packet]: line 207, then line 209. *)
Definition notified (s : impl) : impl := with_cond (S (cond_ s)) s.
Definition try_pop (b : which_buffer) (s : impl) : aligned_buffer * impl :=
  match buffer_of b s with
  | packet :: rest => (packet, with_buffer b rest s)
  | [] => ([], s)
  end.

(** The pump's thread with respect to the condition (lines 174-176): at
    work, blocked in [cond_.wait(lock)], or woken by a notification and
    about to test the condition of the [while] again. *)
Inductive pump_status := pump_runs | pump_waits | pump_woken.

(** What [cond_.notify_all()] does to the pump's thread. *)
Definition notify_all (st : pump_status) : pump_status :=
  match st with pump_waits => pump_woken | _ => st end.

(** A woken pump tests the condition of line 175 on the object as it then
    is, and waits again or goes on. *)
Definition retest (st : pump_status) (s : impl) : pump_status :=
  match st with
  | pump_woken => if must_wait s then pump_waits else pump_runs
  | _ => st
  end.

(** [n] successive calls of [get_packet] on the same queue: the buffers
    returned, first call first. *)
Fixpoint get_packets (b : which_buffer) (n : nat) (s : impl)
  : list aligned_buffer * impl :=
  match n with
  | O => ([], s)
  | S n' =>
      let (packet, s1) := get_packet b s in
      let (packets, s2) := get_packets b n' s1 in
      (packet :: packets, s2)
  end.

(** [n] runs of [read_file]. *)
Fixpoint read_files (n : nat) (s : impl) : impl :=
  match n with
  | O => s
  | S n' => read_files n' (read_file s)
  end.

(** A [double] result: a finite value, or an infinity or NaN. *)
Inductive double := finite (q : Q) | not_finite.

(** [fps] (lines 217-220): the quotient of two doubles; without a video
    context the code dereferences a null pointer. *)
Definition fps (s : impl) : outcome double :=
  match video_codec_context_ s with
  | Some c =>
      Returned (if num (time_base c) =? 0 then not_finite
                else finite (inject_Z (den (time_base c)) / inject_Z (num (time_base c)))%Q)
  | None => Undefined
  end.



(** What can happen to the object once it is built: the executor, while it
    runs, performs [read_file]; a consumer takes a packet from either
    queue. *)
Inductive step : impl -> impl -> Prop :=
| step_read s :
    is_running (executor_ s) = true -> step s (read_file s)
| step_get b s :
    step s (snd (get_packet b s)).

Inductive steps_to : impl -> impl -> Prop :=
| steps_refl s : steps_to s s
| steps_next s1 s2 s3 : step s1 s2 -> steps_to s2 s3 -> steps_to s1 s3.

End Pump.

End Input.

(** ** Instances used to run the code *)

(** A transform with a single numeric field (an opacity, a gain). *)
Module Scalar.

(** Modelled from the spec: the easing functions of
    [common/utility/tweener.h] are not part of the two files.  An easing
    function has the signature [(t, from, to, duration)]. *)
Definition easing : Type := Q -> Q -> Q -> Q -> Q.

(** Modelled from the spec: [linear], the interpolation that is [from] at
    [t = 0] and [to] at [t = duration].  The arithmetic is exact here;
    [Binary64.linear] is the same formula on doubles, where each operation
    rounds. *)
Definition linear : easing :=
  fun t from to duration => (from + (to - from) * t / duration)%Q.

(** Modelled from the spec: the lookup by name; [linear] must be known, an
    unknown name fails. *)
Definition lookup (name : string) : option easing :=
  if String.eqb name "linear" then Some linear else None.

#[export] Instance tweeners : Tweeners :=
  {| tweener_t := easing; get_tweener := lookup; linear_tweener := linear |}.

(** Modelled from the spec: a transform value with identity [1], composed by
    multiplication, compared by value. *)
#[export] Instance scalar : Transform Q :=
  {| transform_default := 1%Q;
     tween := fun t source dest duration tweener => tweener t source dest duration;
     transform_mul := Qmult;
     transform_neq := fun a b => negb (Qeq_bool a b) |}.

Definition data_frame (layer : Z) (id : nat) : basic_frame :=
  {| frame_tag_of := tag_data; get_layer_index := layer; frame_id := id |}.
Definition empty_frame : basic_frame :=
  {| frame_tag_of := tag_empty; get_layer_index := 0; frame_id := 0 |}.
Definition eof_frame : basic_frame :=
  {| frame_tag_of := tag_eof; get_layer_index := 0; frame_id := 0 |}.

(** A mixer in the given mode whose root image tween is under way: from 1
    to 1/2 over 10 ticks. *)
Definition started (mode : video_mode) : mixer Q Q :=
  default (mixer_new mode)
    (set_image_transform (1 # 2)%Q 10 "linear" (mixer_new mode)).

End Scalar.

(** The two decisive evaluations of [fetch] on IEEE doubles, with the
    operations in the order [source + (dest - source) * t / d]. *)
Module Binary64.

Definition linear (t from to duration : float) : float :=
  (from + (to - from) * t / duration)%float.

(** [fetch()] of a tween with [time_ = 1], [duration_ = 1] from 0 to 1. *)
Definition fetch_at_duration : float :=
  linear 1 0 1 (1 + 0x1.0c6f7a0b5ed8dp-20)%float.

(** [fetch()] of a tween with [time_ = 0], [duration_ = 0] from 1 to 0.5. *)
Definition fetch_zero_duration : float :=
  linear 0 1 0.5 (0 + 0x1.0c6f7a0b5ed8dp-20)%float.

End Binary64.

(** A container held in memory: the packets in file order, the read
    position, and whether seeking works. *)
Module Clip.
Import Input.

Record clip := mk_clip {
  clip_streams : list (option AVStream);
  clip_packets : list AVPacket;
  position : nat;
  seekable : bool
}.

Definition no_packet : AVPacket := mk_packet (-1) [].

Definition read (c : clip) : Z * AVPacket * clip :=
  match nth_error (clip_packets c) (position c) with
  | Some p => (0, p, mk_clip (clip_streams c) (clip_packets c) (S (position c)) (seekable c))
  | None => (-1, no_packet, c)
  end.

Definition seek (c : clip) (stream target flags : Z) : Z * clip :=
  if seekable c
  then (0, mk_clip (clip_streams c) (clip_packets c) 0 (seekable c))
  else (-1, c).

Definition time_base_of (c : clip) (i : Z) : AVRational :=
  match nth_error (clip_streams c) (Z.to_nat i) with
  | Some (Some st) => time_base (codec st)
  | _ => mk_rational 1 25
  end.

(** [a * bq / cq], rounded to nearest. *)
Definition rescale (a : Z) (bq cq : AVRational) : Z :=
  let b := num bq * den cq in
  let c := num cq * den bq in
  (2 * a * b + c) / (2 * c).

Definition lib (c : clip) : libav clip :=
  {| av_open_input_file := fun _ => (0, c);
     av_find_stream_info := fun c' => (0, c');
     streams := clip_streams;
     stream_time_base := time_base_of;
     avcodec_find_decoder := fun _ => true;
     avcodec_open := fun _ => 0;
     av_read_frame := read;
     av_seek_frame := seek;
     av_rescale_q := rescale |}.

Definition video_context : AVCodecContext :=
  mk_codec_context CODEC_TYPE_VIDEO 13 (mk_rational 1 30000).
Definition audio_context : AVCodecContext :=
  mk_codec_context CODEC_TYPE_AUDIO 86016 (mk_rational 1 48000).

(** One video stream and one audio stream, three packets. *)
Definition sample (seekable : bool) : clip :=
  mk_clip [Some (mk_stream 0 video_context); Some (mk_stream 1 audio_context)]
          [mk_packet 0 [Byte.x61]; mk_packet 1 [Byte.x62]; mk_packet 0 [Byte.x63]]
          0 seekable.

(** The same two streams, and one packet of a third stream. *)
Definition with_other_stream : clip :=
  mk_clip [Some (mk_stream 0 video_context); Some (mk_stream 1 audio_context)]
          [mk_packet 2 [Byte.x64]] 0 true.

(** A source that never ends: every read gives a packet of stream 0. *)
Definition endless : libav unit :=
  {| av_open_input_file := fun _ => (0, tt);
     av_find_stream_info := fun c => (0, c);
     streams := fun _ => [Some (mk_stream 0 video_context)];
     stream_time_base := fun _ _ => mk_rational 1 30000;
     avcodec_find_decoder := fun _ => true;
     avcodec_open := fun _ => 0;
     av_read_frame := fun c => (0, mk_packet 0 [Byte.x61], c);
     av_seek_frame := fun c _ _ _ => (0, c);
     av_rescale_q := rescale |}.

(** What the constructor returns, or an object without streams when it
    does not return. *)
Definition built {C} (l : libav C) (c : C) (loop : bool) : implementation C :=
  match construct l [] "sample" loop with
  | Returned s => s
  | _ => mk_impl [] c None None loop (-1) (-1) [] [] 0%nat (mk_executor false 0)
  end.

(** The object built on [sample], after the three runs of [read_file]
    that take its three packets. *)
Definition drained (seekable loop : bool) : implementation clip :=
  let l := lib (sample seekable) in
  match construct l [] "sample" loop with
  | Returned s => read_file l (read_file l (read_file l s))
  | _ => mk_impl [] (sample seekable) None None loop (-1) (-1) [] [] 0%nat
           (mk_executor false 0)
  end.

End Clip.


(** * Properties *)

(** ** Integers *)

Lemma wrap_id z : Int.in_range z -> Int.wrap z = z.
Proof.
  unfold Int.in_range, Int.INT_MIN, Int.INT_MAX, Int.wrap. intros Hz.
  rewrite Z.mod_small; lia.
Qed.

(** ** Tweened transforms *)

Section TweenedTransformFacts.
Context `{Tweeners} {T : Type} `{!Transform T}.
Implicit Types t : tweened_transform T.

Lemma tick_time t n :
  no_overflow t -> 0 <= n <= 2 ->
  time_ (tick n t) = Z.min (time_ t + n) (duration_ t).
Proof.
  intros [Ht Hd] Hn. unfold tick; simpl.
  rewrite wrap_id; [reflexivity|].
  unfold Int.in_range, Int.INT_MIN, Int.INT_MAX in *. lia.
Qed.

Lemma tick_no_overflow t n :
  no_overflow t -> 0 <= n <= 2 -> no_overflow (tick n t).
Proof.
  intros Hno Hn. pose proof (tick_time t n Hno Hn) as E.
  destruct Hno as [Ht Hd]. split; [rewrite E|exact Hd].
  unfold Int.INT_MIN, Int.INT_MAX in *. lia.
Qed.

Lemma tick_le_duration t n :
  no_overflow t -> 0 <= n <= 2 -> time_ (tick n t) <= duration_ (tick n t).
Proof. intros Hno Hn. rewrite tick_time by assumption. simpl. lia. Qed.

Lemma ticks_add num a b t : ticks num (a + b) t = ticks num b (ticks num a t).
Proof. revert t. induction a as [|a IH]; intros t; simpl; [reflexivity|apply IH]. Qed.

Lemma ticks_duration num k t : duration_ (ticks num k t) = duration_ t.
Proof. revert t. induction k as [|k IH]; intros t; simpl; [reflexivity|now rewrite IH]. Qed.

Lemma ticks_source num k t : source_ (ticks num k t) = source_ t.
Proof. revert t. induction k as [|k IH]; intros t; simpl; [reflexivity|now rewrite IH]. Qed.

Lemma ticks_dest num k t : dest_ (ticks num k t) = dest_ t.
Proof. revert t. induction k as [|k IH]; intros t; simpl; [reflexivity|now rewrite IH]. Qed.

Lemma ticks_tweener num k t : tweener_ (ticks num k t) = tweener_ t.
Proof. revert t. induction k as [|k IH]; intros t; simpl; [reflexivity|now rewrite IH]. Qed.

(** [k] calls of [fetch_and_tick(num)] move the elapsed time by [k * num],
    clamped at the duration. *)
Lemma ticks_time num k t :
  no_overflow t -> time_ t <= duration_ t -> 0 <= num <= 2 ->
  time_ (ticks num k t) = Z.min (time_ t + Z.of_nat k * num) (duration_ t).
Proof.
  intros Hno Hle Hn. revert t Hno Hle. induction k as [|k IH]; intros t Hno Hle.
  - simpl. lia.
  - cbn [ticks]. rewrite IH.
    + rewrite tick_time by assumption. cbn [duration_ tick]. lia.
    + apply tick_no_overflow; assumption.
    + apply tick_le_duration; assumption.
Qed.

Lemma fetch_ticks num k t :
  fetch (ticks num k t) =
  tween (inject_Z (time_ (ticks num k t))) (source_ t) (dest_ t)
        (inject_Z (duration_ t) + epsilon)%Q (tweener_ t).
Proof.
  unfold fetch.
  now rewrite ticks_source, ticks_dest, ticks_duration, ticks_tweener.
Qed.

(** A tween of duration 0 never leaves time 0. *)
Lemma ticks_zero_duration num k t :
  0 <= num <= 2 -> time_ t = 0 -> duration_ t = 0 -> time_ (ticks num k t) = 0.
Proof.
  intros Hn Ht Hd. rewrite ticks_time.
  - lia.
  - unfold no_overflow, Int.INT_MIN, Int.INT_MAX. lia.
  - lia.
  - assumption.
Qed.

End TweenedTransformFacts.

(** ** The mixing passes *)

Section MixerFacts.
Context `{Tweeners} {I A : Type} `{!Transform I} `{!Transform A}.
Implicit Types (s : mixer I A) (f : basic_frame).

Lemma entry_insert {T} `{!Transform T} (m : gmap Z (tweened_transform T)) i t :
  entry (<[i := t]> m) i = t.
Proof. unfold entry. now rewrite lookup_insert_eq. Qed.

Lemma steps_cases m : steps m = 1 \/ steps m = 2.
Proof. destruct m; cbv; auto. Qed.

(** One evaluation of the image transform of a frame: the product of the
    root tween and of the layer's tween, each ticked once. *)
Lemma image_evaluation_eq f s :
  image_evaluation f s =
  (transform_mul (fetch (tick 1 (root_image_transform_ s)))
                 (fetch (tick 1 (entry (image_transforms_ s) (get_layer_index f)))),
   with_image_transforms
     (<[get_layer_index f := tick 1 (entry (image_transforms_ s) (get_layer_index f))]>
        (image_transforms_ s))
     (with_root_image (tick 1 (root_image_transform_ s)) s)).
Proof. reflexivity. Qed.

Lemma mix_audio_frame_eq f s :
  mix_audio_frame f s =
  (let num := steps (format_desc_mode s) in
   (mk_child f
      (transform_mul (fetch (tick num (root_audio_transform_ s)))
                     (fetch (tick num (entry (audio_transforms_ s) (get_layer_index f))))),
    with_audio_transforms
      (<[get_layer_index f := tick num (entry (audio_transforms_ s) (get_layer_index f))]>
         (audio_transforms_ s))
      (with_root_audio (tick num (root_audio_transform_ s)) s))).
Proof. reflexivity. Qed.

Lemma mix_image_frame_eq f s :
  mix_image_frame f s =
  (if negb (is_progressive (format_desc_mode s)) then
     let a := image_evaluation f s in
     let b := image_evaluation f (snd a) in
     (if transform_neq (fst a) (fst b)
      then interlaced_item (mk_child f (fst a)) (mk_child f (fst b)) (format_desc_mode s)
      else single_item (mk_child f (fst b)), snd b)
   else
     let a := image_evaluation f s in
     (single_item (mk_child f (fst a)), snd a)).
Proof.
  unfold mix_image_frame, mbind, M_bind, get_mode.
  destruct (is_progressive (format_desc_mode s)); cbn [negb].
  - reflexivity.
  - rewrite !image_evaluation_eq. cbn [fst snd].
    match goal with |- context [transform_neq ?a ?b] => destruct (transform_neq a b) end;
      reflexivity.
Qed.

Lemma mix_image_frame_mode f s :
  format_desc_mode (snd (mix_image_frame f s)) = format_desc_mode s.
Proof.
  rewrite mix_image_frame_eq.
  destruct (is_progressive (format_desc_mode s)); reflexivity.
Qed.

Lemma mix_image_frame_root f s :
  root_image_transform_ (snd (mix_image_frame f s)) =
  ticks 1 (Z.to_nat (steps (format_desc_mode s))) (root_image_transform_ s).
Proof.
  rewrite mix_image_frame_eq. unfold steps.
  destruct (is_progressive (format_desc_mode s)); reflexivity.
Qed.

Lemma mix_image_frame_entry f s :
  entry (image_transforms_ (snd (mix_image_frame f s))) (get_layer_index f) =
  ticks 1 (Z.to_nat (steps (format_desc_mode s)))
        (entry (image_transforms_ s) (get_layer_index f)).
Proof.
  rewrite mix_image_frame_eq. unfold steps.
  destruct (is_progressive (format_desc_mode s)); cbn [negb]; cbv zeta;
    repeat (rewrite !image_evaluation_eq;
            cbn [fst snd image_transforms_ with_image_transforms with_root_image]);
    rewrite !entry_insert; reflexivity.
Qed.

Lemma mix_audio_frame_mode f s :
  format_desc_mode (snd (mix_audio_frame f s)) = format_desc_mode s.
Proof. reflexivity. Qed.

Lemma mix_audio_frame_root f s :
  root_audio_transform_ (snd (mix_audio_frame f s)) =
  tick (steps (format_desc_mode s)) (root_audio_transform_ s).
Proof. reflexivity. Qed.

Lemma mix_audio_frame_entry f s :
  entry (audio_transforms_ (snd (mix_audio_frame f s))) (get_layer_index f) =
  tick (steps (format_desc_mode s)) (entry (audio_transforms_ s) (get_layer_index f)).
Proof.
  rewrite mix_audio_frame_eq.
  cbn [snd audio_transforms_ with_audio_transforms with_root_audio].
  now rewrite entry_insert.
Qed.

(** The state after a loop over [f :: l] is the state after the loop over
    [l] started where the body left [f]. *)
Lemma for_each_cons {B} (body : basic_frame -> M B) f l s :
  snd (for_each body (f :: l) s) = snd (for_each body l (snd (body f s))).
Proof.
  cbn [for_each]. unfold mbind, M_bind.
  destruct (body f s) as [b s1]. cbn [snd].
  destruct (for_each body l s1) as [bs s2]. reflexivity.
Qed.

Lemma for_each_length {B} (body : basic_frame -> M B) l s :
  length (fst (for_each body l s)) = length l.
Proof.
  revert s. induction l as [|f l IH]; intros s; [reflexivity|].
  cbn [for_each]. unfold mbind, M_bind.
  destruct (body f s) as [b s1].
  specialize (IH s1). destruct (for_each body l s1) as [bs s2].
  cbn in *. now rewrite IH.
Qed.

Lemma for_each_image_mode l s :
  format_desc_mode (snd (for_each mix_image_frame l s)) = format_desc_mode s.
Proof.
  revert s. induction l as [|f l IH]; intros s; [reflexivity|].
  now rewrite for_each_cons, IH, mix_image_frame_mode.
Qed.

(** Over a list of frames the root image tween receives [steps] calls of
    [fetch_and_tick(1)] for each frame. *)
Lemma for_each_image_root l s :
  root_image_transform_ (snd (for_each mix_image_frame l s)) =
  ticks 1 (length l * Z.to_nat (steps (format_desc_mode s))) (root_image_transform_ s).
Proof.
  revert s. induction l as [|f l IH]; intros s; [reflexivity|].
  rewrite for_each_cons, IH, mix_image_frame_mode, mix_image_frame_root.
  cbn [length Nat.mul]. now rewrite ticks_add.
Qed.

Lemma for_each_audio_mode l s :
  format_desc_mode (snd (for_each mix_audio_frame l s)) = format_desc_mode s.
Proof.
  revert s. induction l as [|f l IH]; intros s; [reflexivity|].
  now rewrite for_each_cons, IH, mix_audio_frame_mode.
Qed.

(** Over a list of frames the root audio tween receives one call of
    [fetch_and_tick(num)] for each frame. *)
Lemma for_each_audio_root l s :
  root_audio_transform_ (snd (for_each mix_audio_frame l s)) =
  ticks (steps (format_desc_mode s)) (length l) (root_audio_transform_ s).
Proof.
  revert s. induction l as [|f l IH]; intros s; [reflexivity|].
  rewrite for_each_cons, IH, mix_audio_frame_mode, mix_audio_frame_root.
  reflexivity.
Qed.

Lemma two_ticks_time {T} `{!Transform T} (t : tweened_transform T) n :
  no_overflow t -> n = 1 \/ n = 2 ->
  time_ (ticks 1 (Z.to_nat n) t) = Z.min (time_ t + n) (duration_ t).
Proof.
  intros Hno [-> | ->].
  - cbn [Z.to_nat Pos.to_nat Pos.iter_op ticks]. apply tick_time; [assumption|lia].
  - change (Z.to_nat 2) with 2%nat. cbn [ticks].
    rewrite tick_time by (try apply tick_no_overflow; assumption || lia).
    rewrite tick_time by (assumption || lia). cbn [duration_ tick]. lia.
Qed.

(** C1 (as amended).  After [set_image_transform(x, d, "linear")] with
    [d > 0], the value fetched once the elapsed time is [k], for every
    [0 <= k <= d], is the easing evaluated at [k] between the value the root
    had when it was set and [x], over the duration [d + epsilon].  (At
    [k = d] this is the easing short of its end point; that it is [x] is
    not claimed.) *)
Theorem set_then_fetch_is_easing (s : mixer I A) (x : I) (d : Z) (k : nat)
    (lin : tweener_t) :
  get_tweener "linear" = Some lin ->
  0 < d <= Int.INT_MAX - 2 ->
  Z.of_nat k <= d ->
  exists s',
    set_image_transform x d "linear" s = Some s' /\
    time_ (ticks 1 k (root_image_transform_ s')) = Z.of_nat k /\
    fetch (ticks 1 k (root_image_transform_ s')) =
      tween (inject_Z (Z.of_nat k)) (fetch (root_image_transform_ s)) x
            (inject_Z d + epsilon)%Q lin.
Proof.
  intros Hlin Hd Hk.
  unfold set_image_transform, set_transform, tweened_new. rewrite Hlin.
  eexists. split; [reflexivity|].
  cbn [root_image_transform_ with_root_image].
  set (t := mk_tweened _ _ _ _ _).
  assert (Ht : time_ (ticks 1 k t) = Z.of_nat k).
  { rewrite ticks_time; subst t; cbn [time_ duration_]; try lia.
    unfold no_overflow, Int.INT_MIN, Int.INT_MAX in *. cbn [time_ duration_]. lia. }
  split; [exact Ht|].
  rewrite fetch_ticks, Ht. reflexivity.
Qed.

(** C4 (as amended).  Handling one frame in the image pass moves the
    elapsed time of the root image tween and of the frame's layer entry by
    [n] steps clamped at the tween's duration, [n] being 2 when the mode is
    interlaced and 1 when it is progressive; handling it in the audio pass
    does the same to the two audio tweens. *)
Theorem frame_ticks_clamped (s : mixer I A) (f : basic_frame) :
  no_overflow (root_image_transform_ s) ->
  no_overflow (entry (image_transforms_ s) (get_layer_index f)) ->
  no_overflow (root_audio_transform_ s) ->
  no_overflow (entry (audio_transforms_ s) (get_layer_index f)) ->
  let n := if is_progressive (format_desc_mode s) then 1 else 2 in
  let clamped {T} (before after : tweened_transform T) :=
    time_ after = Z.min (time_ before + n) (duration_ before) in
  let si := snd (mix_image_frame f s) in
  let sa := snd (mix_audio_frame f s) in
  clamped (root_image_transform_ s) (root_image_transform_ si) /\
  clamped (entry (image_transforms_ s) (get_layer_index f))
          (entry (image_transforms_ si) (get_layer_index f)) /\
  clamped (root_audio_transform_ s) (root_audio_transform_ sa) /\
  clamped (entry (audio_transforms_ s) (get_layer_index f))
          (entry (audio_transforms_ sa) (get_layer_index f)).
Proof.
  intros Hri Hei Hra Hea n clamped si sa. subst clamped si sa. cbv beta.
  fold (steps (format_desc_mode s)) in n.
  pose proof (steps_cases (format_desc_mode s)) as Hn. fold n in Hn.
  rewrite mix_image_frame_root, mix_image_frame_entry,
          mix_audio_frame_root, mix_audio_frame_entry.
  fold n. repeat split.
  - now apply two_ticks_time.
  - now apply two_ticks_time.
  - apply tick_time; [assumption|lia].
  - apply tick_time; [assumption|lia].
Qed.

(** The body of the loop in an interlaced mode: two child frames whose
    transforms are evaluated one after the other, each evaluation ticking
    the root tween and the layer's tween once; the two interlaced when the
    transforms differ, the second child alone otherwise. *)
Theorem interlaced_frame_pair (s : mixer I A) (f : basic_frame)
    (frames : list basic_frame) :
  is_progressive (format_desc_mode s) = false ->
  let root := root_image_transform_ s in
  let layer := entry (image_transforms_ s) (get_layer_index f) in
  let a := image_evaluation f s in
  let b := image_evaluation f (snd a) in
  fst a = transform_mul (fetch (tick 1 root)) (fetch (tick 1 layer)) /\
  fst b = transform_mul (fetch (tick 1 (tick 1 root))) (fetch (tick 1 (tick 1 layer))) /\
  mix_image_frame f s =
    (if transform_neq (fst a) (fst b)
     then interlaced_item (mk_child f (fst a)) (mk_child f (fst b)) (format_desc_mode s)
     else single_item (mk_child f (fst b)),
     snd b) /\
  length (fst (mix_image frames s)) = length (remove_empty_eof frames).
Proof.
  intros Hmode root layer a b. subst root layer a b.
  rewrite mix_image_frame_eq, Hmode. cbn [negb]. cbv zeta.
  rewrite !image_evaluation_eq.
  cbn [fst snd image_transforms_ with_image_transforms with_root_image
       root_image_transform_].
  rewrite entry_insert.
  repeat split. apply for_each_length.
Qed.

(** C10 (as amended).  In one pass the root image tween receives one call
    of [fetch_and_tick(1)] for each surviving frame in progressive mode and
    two in interlaced mode, so that its elapsed time moves by [k] or [2k]
    steps clamped at its duration; the root audio tween receives one call of
    [fetch_and_tick(n)] for each frame handed to the audio pass. *)
Theorem root_ticks_per_frame (s : mixer I A) (frames : list basic_frame) :
  no_overflow (root_image_transform_ s) ->
  time_ (root_image_transform_ s) <= duration_ (root_image_transform_ s) ->
  no_overflow (root_audio_transform_ s) ->
  time_ (root_audio_transform_ s) <= duration_ (root_audio_transform_ s) ->
  let n := if is_progressive (format_desc_mode s) then 1 else 2 in
  let k := length (remove_empty_eof frames) in
  let root_image' := root_image_transform_ (snd (mix_image frames s)) in
  let root_audio' := root_audio_transform_ (snd (mix_audio frames s)) in
  root_image' = ticks 1 (k * Z.to_nat n) (root_image_transform_ s) /\
  time_ root_image' =
    Z.min (time_ (root_image_transform_ s) + Z.of_nat k * n)
          (duration_ (root_image_transform_ s)) /\
  root_audio' = ticks n (length frames) (root_audio_transform_ s) /\
  time_ root_audio' =
    Z.min (time_ (root_audio_transform_ s) + Z.of_nat (length frames) * n)
          (duration_ (root_audio_transform_ s)).
Proof.
  intros Hi Hile Ha Hale n k ri ra. subst ri ra k.
  fold (steps (format_desc_mode s)) in n.
  pose proof (steps_cases (format_desc_mode s)) as Hn. fold n in Hn.
  unfold mix_image, mix_audio.
  rewrite for_each_image_root, for_each_audio_root. fold n.
  repeat split.
  - rewrite ticks_time by (assumption || lia).
    rewrite Nat2Z.inj_mul, Z2Nat.id by lia. lia.
  - rewrite ticks_time by (assumption || lia). reflexivity.
Qed.

End MixerFacts.

(** ** The mixer run on scalar transforms *)

Section ScalarRuns.
Import Scalar.

Abbreviation new_mixer := (mixer_new (image_transform := Q) (audio_transform := Q)).

(** The model of [linear] meets the easing contract at both ends. *)
Lemma linear_at_zero from to d : (linear 0 from to d == from)%Q.
Proof. unfold linear, Qdiv. ring. Qed.

Lemma linear_at_duration from to d : ~ (d == 0)%Q -> (linear d from to d == to)%Q.
Proof. intros Hd. unfold linear. field. exact Hd. Qed.

(** Evaluated at [t = d] over the duration [d + epsilon], [linear] stops
    short of [to] by the fraction [epsilon / (d + epsilon)] of the way. *)
Lemma linear_short_of_dest from to d :
  (0 <= d)%Q ->
  (to - linear d from to (d + epsilon) == (to - from) * (epsilon / (d + epsilon)))%Q.
Proof.
  intros Hd. unfold linear. field.
  intros E. assert (0 < d + epsilon)%Q as Hpos.
  { apply Qlt_le_trans with (0 + epsilon)%Q; [reflexivity|].
    apply Qplus_le_l. exact Hd. }
  rewrite E in Hpos. discriminate Hpos.
Qed.

(** A scalar tween of duration 0 shows its source, whatever its
    destination and however often it is ticked. *)
Lemma scalar_zero_duration_shows_source (source dest : Q) (k : nat) :
  (fetch (ticks 1 k (mk_tweened source dest 0 0 linear)) == source)%Q.
Proof.
  rewrite fetch_ticks, ticks_zero_duration by (reflexivity || lia).
  cbn [source_ dest_ duration_ tweener_ tween scalar]. apply linear_at_zero.
Qed.

Lemma set_then_fetch_is_easing_witness :
  get_tweener "linear" = Some linear /\
  0 < 10 <= Int.INT_MAX - 2 /\
  Z.of_nat 3 <= 10 /\
  exists s',
    set_image_transform (1 # 2)%Q 10 "linear" (new_mixer progressive) = Some s' /\
    time_ (ticks 1 3 (root_image_transform_ s')) = Z.of_nat 3 /\
    fetch (ticks 1 3 (root_image_transform_ s')) =
      tween (inject_Z (Z.of_nat 3)) (fetch (root_image_transform_ (new_mixer progressive)))
            (1 # 2)%Q (inject_Z 10 + epsilon)%Q linear.
Proof.
  assert (H1 : get_tweener "linear" = Some linear) by reflexivity.
  assert (H2 : 0 < 10 <= Int.INT_MAX - 2) by (unfold Int.INT_MAX; lia).
  assert (H3 : Z.of_nat 3 <= 10) by (simpl; lia).
  repeat split; try assumption; try apply H2.
  exact (set_then_fetch_is_easing (new_mixer progressive) (1 # 2)%Q 10 3 linear H1 H2 H3).
Defined.

(** C1, as stated, fails: from the default root (value 1) a tween to 1/2
    over 10 ticks, fetched when the elapsed time is 10, is
    [1 - (1/2) * 10 / (10 + epsilon)], which is not 1/2. *)
Lemma set_fetch_at_duration_is_not_dest :
  exists s',
    set_image_transform (1 # 2)%Q 10 "linear" (new_mixer progressive) = Some s' /\
    time_ (ticks 1 10 (root_image_transform_ s')) = duration_ (root_image_transform_ s') /\
    ~ (fetch (ticks 1 10 (root_image_transform_ s')) == 1 # 2)%Q.
Proof.
  eexists. split; [reflexivity|]. split; [reflexivity|].
  vm_compute. discriminate.
Qed.

(** C3 at its failing input: on a fresh mixer the root shows 1;
    [apply_image_transform(fn, 0, "linear")] with [fn v = v / 2] leaves a
    tween that shows 1 at once and after any number of ticks, never
    [fn 1 = 1/2]. *)
Theorem apply_zero_duration_shows_previous :
  let s := new_mixer progressive in
  let fn := fun v : Q => (v * (1 # 2))%Q in
  exists s',
    apply_image_transform fn 0 "linear" s = Some s' /\
    (fetch (root_image_transform_ s) == 1)%Q /\
    (fetch (root_image_transform_ s') == 1)%Q /\
    ~ (fetch (root_image_transform_ s') == fn 1)%Q /\
    forall k, (fetch (ticks 1 k (root_image_transform_ s')) == 1)%Q.
Proof.
  cbv zeta. eexists. split; [reflexivity|].
  split; [reflexivity|]. split; [reflexivity|].
  split; [vm_compute; discriminate|].
  intros k.
  etransitivity; [apply scalar_zero_duration_shows_source|reflexivity].
Qed.

(** C2 at its failing input: with a root audio tween under way, a tick
    whose only frame is EMPTY gives the image mixer nothing, but the audio
    mixer accepts a child of the EMPTY frame and the root audio tween moves
    from elapsed 0 to 1. *)
Theorem audio_pass_takes_empty_frame :
  let s := default (new_mixer progressive)
             (set_audio_transform (1 # 2)%Q 10 "linear" (new_mixer progressive)) in
  let out := send [empty_frame] s in
  fst (fst out) = [] /\
  List.map child_of (snd (fst out)) = [empty_frame] /\
  time_ (root_audio_transform_ s) = 0 /\
  time_ (root_audio_transform_ (snd out)) = 1 /\
  audio_transforms_ s !! get_layer_index empty_frame = None /\
  audio_transforms_ (snd out) !! get_layer_index empty_frame <> None.
Proof. vm_compute. repeat split. discriminate. Qed.

(** What the image pass does with EMPTY and EOF, for comparison: it handles
    the cleaned vector, so such frames reach neither the image mixer nor the
    image tweens. *)
Lemma image_pass_skips_empty_and_eof (s : mixer Q Q) :
  mix_image [empty_frame; eof_frame] s = ([], s).
Proof. reflexivity. Qed.

Lemma frame_ticks_clamped_witness :
  let s := started upper in
  let f := data_frame 0 1 in
  no_overflow (root_image_transform_ s) /\
  no_overflow (entry (image_transforms_ s) (get_layer_index f)) /\
  no_overflow (root_audio_transform_ s) /\
  no_overflow (entry (audio_transforms_ s) (get_layer_index f)) /\
  time_ (root_image_transform_ s) = 0 /\
  time_ (root_image_transform_ (snd (mix_image_frame f s))) = 2 /\
  time_ (entry (image_transforms_ (snd (mix_image_frame f s))) (get_layer_index f)) = 0.
Proof.
  intros s f.
  assert (H1 : no_overflow (root_image_transform_ s)) by (vm_compute; intuition discriminate).
  assert (H2 : no_overflow (entry (image_transforms_ s) (get_layer_index f)))
    by (vm_compute; intuition discriminate).
  assert (H3 : no_overflow (root_audio_transform_ s)) by (vm_compute; intuition discriminate).
  assert (H4 : no_overflow (entry (audio_transforms_ s) (get_layer_index f)))
    by (vm_compute; intuition discriminate).
  destruct (frame_ticks_clamped s f H1 H2 H3 H4) as (E1 & E2 & _).
  exact (conj H1 (conj H2 (conj H3 (conj H4 (conj eq_refl (conj E1 E2)))))).
Defined.

(** C4, as stated, fails: on a fresh interlaced mixer every tween has
    duration 0, and handling a frame leaves the root image tween at elapsed
    0 instead of moving it to 2. *)
Lemma interlaced_frame_does_not_advance_fresh_root :
  let s := new_mixer upper in
  let f := data_frame 0 1 in
  is_progressive (format_desc_mode s) = false /\
  remove_empty_eof [f] = [f] /\
  time_ (root_image_transform_ s) = 0 /\
  time_ (root_image_transform_ (snd (mix_image_frame f s))) = 0 /\
  time_ (root_image_transform_ (snd (mix_image_frame f s)))
    <> time_ (root_image_transform_ s) + 2.
Proof. vm_compute. repeat split. discriminate. Qed.

Lemma interlaced_frame_pair_witness :
  let s := started lower in
  let f := data_frame 0 1 in
  is_progressive (format_desc_mode s) = false /\
  exists a b,
    mix_image_frame f s =
      (interlaced_item (mk_child f a) (mk_child f b) lower,
       snd (image_evaluation f (snd (image_evaluation f s)))) /\
    transform_neq a b = true.
Proof.
  intros s f.
  assert (H1 : is_progressive (format_desc_mode s) = false) by reflexivity.
  split; [exact H1|].
  destruct (interlaced_frame_pair s f [f] H1) as (_ & _ & E & _).
  eexists _, _. split; [exact E|reflexivity].
Defined.

Lemma root_ticks_per_frame_witness :
  let s := started progressive in
  let frames := [data_frame 0 1; empty_frame; data_frame 1 2; data_frame 0 3] in
  no_overflow (root_image_transform_ s) /\
  time_ (root_image_transform_ s) <= duration_ (root_image_transform_ s) /\
  no_overflow (root_audio_transform_ s) /\
  time_ (root_audio_transform_ s) <= duration_ (root_audio_transform_ s) /\
  time_ (root_image_transform_ (snd (mix_image frames s))) = 3 /\
  time_ (root_audio_transform_ (snd (mix_audio frames s))) = 0.
Proof.
  intros s frames.
  assert (H1 : no_overflow (root_image_transform_ s)) by (vm_compute; intuition discriminate).
  assert (H2 : time_ (root_image_transform_ s) <= duration_ (root_image_transform_ s))
    by (vm_compute; discriminate).
  assert (H3 : no_overflow (root_audio_transform_ s)) by (vm_compute; intuition discriminate).
  assert (H4 : time_ (root_audio_transform_ s) <= duration_ (root_audio_transform_ s))
    by (vm_compute; discriminate).
  destruct (root_ticks_per_frame s frames H1 H2 H3 H4) as (_ & E1 & _ & E2).
  exact (conj H1 (conj H2 (conj H3 (conj H4 (conj E1 E2))))).
Defined.

(** C10, as stated, fails: on a fresh progressive mixer a tick with two
    surviving frames leaves the root image tween at elapsed 0, not at 2. *)
Lemma two_frames_do_not_advance_fresh_root :
  let s := new_mixer progressive in
  let frames := [data_frame 0 1; data_frame 1 2] in
  length (remove_empty_eof frames) = 2%nat /\
  time_ (root_image_transform_ s) = 0 /\
  time_ (root_image_transform_ (snd (mix_image frames s))) = 0 /\
  time_ (root_image_transform_ (snd (mix_image frames s)))
    <> time_ (root_image_transform_ s) + 2.
Proof. vm_compute. repeat split. discriminate. Qed.

End ScalarRuns.

(** ** The same two evaluations in binary64 *)

Lemma binary64_fetch_at_duration :
  PrimFloat.ltb Binary64.fetch_at_duration 1 = true.
Proof. vm_compute. reflexivity. Qed.

Lemma binary64_fetch_zero_duration :
  PrimFloat.eqb Binary64.fetch_zero_duration 1 = true.
Proof. vm_compute. reflexivity. Qed.

(** ** The input pump *)

Section PumpFacts.
Import Input.
Context {C : Type} (lib : libav C).
Implicit Types s : implementation C.

(** *** [fix_time_base] *)



(** Repairing twice is repairing once. *)
Lemma fix_time_base_idempotent v v' :
  fix_time_base v = Returned v' -> fix_time_base v' = Returned v'.
Proof.
  destruct v as [c|]; cbn [fix_time_base]; [|now intros [= <-]].
  destruct (num (time_base c) =? 1) eqn:E1; [|intros [= <-]; cbn; now rewrite E1].
  destruct (log10_trunc (den (time_base c))) as [k| | |] eqn:E2; try discriminate.
  intros [= <-]. cbn [fix_time_base time_base num den codec_type codec_id].
  destruct (pow10_trunc (k - 1) =? 1) eqn:E3; [|reflexivity].
  now rewrite E2.
Qed.



(** *** [is_eof] *)

(** C5.  [is_eof] is true exactly when the executor is not running and both
    packet queues are empty. *)
Theorem is_eof_iff s :
  is_eof s = true <->
  is_running (executor_ s) = false /\
  video_packet_buffer_ s = [] /\
  audio_packet_buffer_ s = [].
Proof.
  unfold is_eof.
  destruct (is_running (executor_ s)), (video_packet_buffer_ s),
           (audio_packet_buffer_ s); cbn; intuition congruence.
Qed.

(** *** [read_file] and [seek_frame] *)

Lemma seek_frame_eq seek_target flags s :
  let stream := Z.max (video_s_index_ s) (audio_s_index_ s) in
  let target0 := Int.wrap64 (seek_target * AV_TIME_BASE) in
  let target :=
    if 0 <=? stream
    then av_rescale_q lib target0 TIME_BASE_Q
           (stream_time_base lib (format_context_ s) stream)
    else target0 in
  let call := av_seek_frame lib (format_context_ s) stream target flags in
  seek_frame lib seek_target flags s =
  (0 <=? fst call, with_format_context (snd call) s).
Proof.
  cbv zeta. unfold seek_frame.
  match goal with |- context [av_seek_frame ?l ?c ?i ?t ?f] =>
    destruct (av_seek_frame l c i t f) as [rc c'] end.
  reflexivity.
Qed.

(** C7.  When [av_read_frame] fails: without [loop_] the executor is stopped
    and the library is not asked to seek; with [loop_] the library is asked
    to seek, with the flag BACKWARD and the target 0 (rescaled to the
    stream's time base), on the stream whose index is the greater of the
    video and audio indices; if that call succeeds the graph gets the tag
    [seek], the executor keeps running and the next run is queued; if it
    fails the executor is stopped.  [seek_frame] yields a boolean, the sign
    test of the library's return code, for every state and every response
    of the library. *)
Theorem read_failure_stops_or_seeks s :
  fst (fst (av_read_frame lib (format_context_ s))) < 0 ->
  let c := snd (av_read_frame lib (format_context_ s)) in
  let stream := Z.max (video_s_index_ s) (audio_s_index_ s) in
  let target :=
    if 0 <=? stream
    then av_rescale_q lib 0 TIME_BASE_Q (stream_time_base lib c stream)
    else 0 in
  let call := av_seek_frame lib c stream target AVSEEK_FLAG_BACKWARD in
  let s' := read_file lib s in
  seek_frame lib 0 AVSEEK_FLAG_BACKWARD (with_format_context c s)
    = (0 <=? fst call, with_format_context (snd call) s) /\
  pending (executor_ s') = S (pending (executor_ s)) /\
  if loop_ s then
    format_context_ s' = snd call /\
    if 0 <=? fst call then
      is_running (executor_ s') = is_running (executor_ s) /\
      graph_ s' = diag_update "input-buffer" (input_buffer_level s)
                    :: diag_tag "seek" :: graph_ s
    else
      is_running (executor_ s') = false /\
      graph_ s' = diag_update "input-buffer" (input_buffer_level s) :: graph_ s
  else
    format_context_ s' = c /\
    is_running (executor_ s') = false /\
    graph_ s' = diag_update "input-buffer" (input_buffer_level s) :: graph_ s.
Proof.
  intros Hfail c stream target call s'. subst s' call target stream c.
  split; [etransitivity; [apply seek_frame_eq|reflexivity]|].
  unfold read_file.
  destruct (av_read_frame lib (format_context_ s)) as [[rc packet] c] eqn:Er.
  cbn [fst snd] in *.
  destruct (0 <=? rc) eqn:E; [apply Z.leb_le in E; lia|].
  cbn [loop_ with_format_context].
  destruct (loop_ s); cbn [negb].
  - rewrite seek_frame_eq. cbv zeta.
    cbn [video_s_index_ audio_s_index_ format_context_ with_format_context].
    change (Int.wrap64 (0 * AV_TIME_BASE)) with 0.
    match goal with |- context [0 <=? fst ?call] => destruct (0 <=? fst call) end;
      cbn; repeat split; reflexivity.
  - cbn. repeat split; reflexivity.
Qed.

(** *** [get_packet] *)

Lemma get_packet_pops_one s (b : which_buffer) :
  cond_ (snd (get_packet b s)) = S (cond_ s) /\
  fst (get_packet b s) = List.hd [] (buffer_of b s) /\
  buffer_of b (snd (get_packet b s)) = List.tl (buffer_of b s) /\
  buffer_of (other b) (snd (get_packet b s)) = buffer_of (other b) s /\
  executor_ (snd (get_packet b s)) = executor_ s.
Proof.
  unfold get_packet.
  destruct b, s as [g c v a l vi ai vq aq n e]; cbn;
    [destruct vq|destruct aq]; cbn; repeat split.
Qed.

(** A call of [get_packet] on either queue notifies the condition once,
    returns the front packet of its queue and removes it, or returns the
    empty buffer and leaves the queue empty when it holds none; the other
    queue is not touched, and the call never makes the pump's wait
    condition true. *)
Theorem get_packet_pops_one_and_notifies (b : which_buffer) s :
  let packet := fst (get_packet b s) in
  let s' := snd (get_packet b s) in
  cond_ s' = S (cond_ s) /\
  packet = List.hd [] (buffer_of b s) /\
  buffer_of b s' = List.tl (buffer_of b s) /\
  length (buffer_of b s') = Nat.pred (length (buffer_of b s)) /\
  buffer_of (other b) s' = buffer_of (other b) s /\
  executor_ s' = executor_ s /\
  implb (must_wait s') (must_wait s) = true.
Proof.
  unfold get_packet, must_wait.
  destruct b, s as [g c v a l vi ai vq aq n e]; cbn.
  - destruct vq as [|p rest]; cbn; repeat split;
      repeat match goal with |- context [?x <? ?y] => destruct (Z.ltb_spec x y) end;
      destruct (is_running e); cbn in *; try reflexivity; lia.
  - destruct aq as [|p rest]; cbn; repeat split;
      repeat match goal with |- context [?x <? ?y] => destruct (Z.ltb_spec x y) end;
      destruct (is_running e); cbn in *; try reflexivity; lia.
Qed.

End PumpFacts.

(** ** The pump run on a container in memory *)

Section ClipRuns.
Import Input Clip.



Lemma read_failure_stops_or_seeks_witness :
  let s := drained true true in
  fst (fst (av_read_frame (lib (sample true)) (format_context_ s))) < 0 /\
  loop_ s = true /\
  is_running (executor_ (read_file (lib (sample true)) s)) = true /\
  position (format_context_ (read_file (lib (sample true)) s)) = 0%nat /\
  graph_ (read_file (lib (sample true)) s) =
    diag_update "input-buffer" (input_buffer_level s) :: diag_tag "seek" :: graph_ s.
Proof.
  intros s.
  assert (H1 : fst (fst (av_read_frame (lib (sample true)) (format_context_ s))) < 0)
    by (vm_compute; reflexivity).
  pose proof (read_failure_stops_or_seeks (lib (sample true)) s H1) as (_ & _ & E).
  change (loop_ s) with true in E. cbv iota in E. destruct E as (Ec & E).
  change (0 <=? _) with true in E. cbv iota in E. destruct E as (Er & Eg).
  split; [exact H1|]. split; [reflexivity|]. split; [exact Er|].
  split; [rewrite Ec; reflexivity|exact Eg].
Defined.

(** Without looping the same failure ends the stream: once the queues are
    emptied [is_eof] holds. *)
Example drained_without_loop_reaches_eof :
  let l := lib (sample true) in
  let s1 := read_file l (drained true false) in
  let s2 := snd (get_video_packet (snd (get_video_packet s1))) in
  let s3 := snd (get_audio_packet s2) in
  is_eof s1 = false /\ is_eof s3 = true /\
  fst (get_video_packet s3) = [] /\ fst (get_audio_packet s3) = [].
Proof. vm_compute. repeat split. Qed.

(** With looping but a container that cannot seek, the pump stops too. *)
Example failed_seek_stops_the_pump :
  is_running (executor_ (read_file (lib (sample false)) (drained false true))) = false.
Proof. reflexivity. Qed.

End ClipRuns.

(** * Further properties *)

(** ** Tweens at rest, negative durations, the control surface *)

Section TweenMore.
Context `{Tweeners} {T : Type} `{!Transform T}.
Implicit Types t : tweened_transform T.

Lemma tick_at_rest t num :
  no_overflow t -> time_ t = duration_ t -> 0 <= num <= 2 -> tick num t = t.
Proof.
  intros [Ht Hd] Hrest Hn. destruct t as [src dst d tm tw]. cbn in *. subst tm.
  unfold tick. cbn. f_equal.
  rewrite wrap_id by (unfold Int.in_range, Int.INT_MIN, Int.INT_MAX in *; lia). lia.
Qed.

Lemma ticks_at_rest t num k :
  no_overflow t -> time_ t = duration_ t -> 0 <= num <= 2 -> ticks num k t = t.
Proof.
  intros Hno Hrest Hn. induction k as [|k IH]; [reflexivity|].
  cbn [ticks]. now rewrite tick_at_rest.
Qed.

(** X1.  A tween whose elapsed time has reached its duration is a fixed
    point of [fetch_and_tick]: any number of further calls leaves the object
    as it is and returns the value [fetch] returns. *)
Theorem tween_at_rest_is_stable t num k :
  no_overflow t -> time_ t = duration_ t -> 0 <= num <= 2 ->
  ticks num k t = t /\
  fetch_and_tick num t = (fetch t, t).
Proof.
  intros Hno Hrest Hn. split; [now apply ticks_at_rest|].
  unfold fetch_and_tick. cbv zeta. now rewrite tick_at_rest.
Qed.

(** X2.  A tween built with a negative duration starts at elapsed 0, above
    its duration; the first [fetch_and_tick] pulls the elapsed time down to
    the negative duration, where it stays. *)
Theorem negative_duration_pulls_time_back (source dest : T) d name t num k :
  tweened_new source dest d name = Some t ->
  Int.INT_MIN <= d < 0 -> 0 <= num <= 2 ->
  time_ t = 0 /\ time_ (ticks num (S k) t) = d.
Proof.
  unfold tweened_new. destruct (get_tweener name) as [tw|]; [|discriminate].
  intros [= <-] Hd Hn. split; [reflexivity|].
  cbn [ticks].
  assert (E : time_ (tick num (mk_tweened source dest d 0 tw)) = d).
  { unfold tick. cbn.
    rewrite wrap_id by (unfold Int.in_range, Int.INT_MIN, Int.INT_MAX in *; lia). lia. }
  rewrite ticks_at_rest; [exact E| |rewrite E; reflexivity|assumption].
  split; [rewrite E|]; cbn [duration_ tick];
    unfold Int.INT_MIN, Int.INT_MAX in *; lia.
Qed.

End TweenMore.

Section MixerMore.
Context `{Tweeners} {I A : Type} `{!Transform I} `{!Transform A}.
Implicit Types (s : mixer I A) (f : basic_frame).

Lemma touch_image_shows_the_same (s : mixer I A) index :
  (forall j, entry (image_transforms_ (touch_image index s)) j
             = entry (image_transforms_ s) j) /\
  (forall j, j <> index ->
     image_transforms_ (touch_image index s) !! j = image_transforms_ s !! j) /\
  image_transforms_ (touch_image index s) !! index
    = Some (entry (image_transforms_ s) index) /\
  audio_side (touch_image index s) = audio_side s /\
  root_image_transform_ (touch_image index s) = root_image_transform_ s.
Proof.
  unfold touch_image. cbn. repeat split.
  - intros j. destruct (Z.eq_dec index j) as [->|Hne].
    + apply entry_insert.
    + unfold entry. now rewrite lookup_insert_ne.
  - intros j Hj. now rewrite lookup_insert_ne.
  - apply lookup_insert_eq.
Qed.

Lemma touch_audio_shows_the_same (s : mixer I A) index :
  (forall j, entry (audio_transforms_ (touch_audio index s)) j
             = entry (audio_transforms_ s) j) /\
  (forall j, j <> index ->
     audio_transforms_ (touch_audio index s) !! j = audio_transforms_ s !! j) /\
  audio_transforms_ (touch_audio index s) !! index
    = Some (entry (audio_transforms_ s) index) /\
  image_side (touch_audio index s) = image_side s /\
  root_audio_transform_ (touch_audio index s) = root_audio_transform_ s.
Proof.
  unfold touch_audio. cbn. repeat split.
  - intros j. destruct (Z.eq_dec index j) as [->|Hne].
    + apply entry_insert.
    + unfold entry. now rewrite lookup_insert_ne.
  - intros j Hj. now rewrite lookup_insert_ne.
  - apply lookup_insert_eq.
Qed.

(** [set_image_transform_at] and its three siblings are the returning case
    of the statement-by-statement definitions. *)
Lemma indexed_calls_when_they_return s (x : I) (y : A)
    (fn : I -> I) (gn : A -> A) index d name :
  set_image_transform_at index x d name s
    = returned (set_image_transform_at_call index x d name s) /\
  set_audio_transform_at index y d name s
    = returned (set_audio_transform_at_call index y d name s) /\
  apply_image_transform_at index fn d name s
    = returned (apply_image_transform_at_call index fn d name s) /\
  apply_audio_transform_at index gn d name s
    = returned (apply_audio_transform_at_call index gn d name s).
Proof.
  unfold set_image_transform_at, set_audio_transform_at, apply_image_transform_at,
    apply_audio_transform_at, set_image_transform_at_call, set_audio_transform_at_call,
    apply_image_transform_at_call, apply_audio_transform_at_call,
    set_transform, apply_transform, tweened_new, touch_image, touch_audio.
  cbn [image_transforms_ audio_transforms_ with_image_transforms with_audio_transforms].
  rewrite !entry_insert.
  destruct (get_tweener name) as [tw|]; cbn; [|repeat split].
  rewrite !insert_insert_eq. repeat split.
Qed.

(** X3.  With an easing name [get_tweener] does not know, every operation
    of the control surface throws.  The root operations and the resets
    throw before anything is assigned.  The indexed operations throw after
    [operator[]] has run: the mixer they leave shows the same tween at
    every index and the same roots as before, and differs from the mixer
    before the call at most in that the index now has an entry in the map
    (the default tween, if it had none). *)
Theorem unknown_easing_throws_after_operator_index s (x : I) (y : A)
    (fn : I -> I) (gn : A -> A) index d name :
  get_tweener name = None ->
  set_image_transform x d name s = None /\
  set_audio_transform y d name s = None /\
  apply_image_transform fn d name s = None /\
  apply_audio_transform gn d name s = None /\
  reset_image_transform d name s = None /\
  reset_audio_transform d name s = None /\
  set_image_transform_at_call index x d name s = throws (touch_image index s) /\
  apply_image_transform_at_call index fn d name s = throws (touch_image index s) /\
  set_audio_transform_at_call index y d name s = throws (touch_audio index s) /\
  apply_audio_transform_at_call index gn d name s = throws (touch_audio index s) /\
  (forall j, entry (image_transforms_ (touch_image index s)) j
             = entry (image_transforms_ s) j) /\
  (forall j, j <> index ->
     image_transforms_ (touch_image index s) !! j = image_transforms_ s !! j) /\
  image_transforms_ (touch_image index s) !! index
    = Some (default tweened_default (image_transforms_ s !! index)) /\
  audio_side (touch_image index s) = audio_side s /\
  root_image_transform_ (touch_image index s) = root_image_transform_ s /\
  (forall j, entry (audio_transforms_ (touch_audio index s)) j
             = entry (audio_transforms_ s) j) /\
  audio_transforms_ (touch_audio index s) !! index
    = Some (default tweened_default (audio_transforms_ s !! index)) /\
  image_side (touch_audio index s) = image_side s /\
  root_audio_transform_ (touch_audio index s) = root_audio_transform_ s.
Proof.
  intros Hname.
  destruct (touch_image_shows_the_same s index) as (I1 & I2 & I3 & I4 & I5).
  destruct (touch_audio_shows_the_same s index) as (A1 & _ & A3 & A4 & A5).
  unfold set_image_transform, set_audio_transform, apply_image_transform,
    apply_audio_transform, reset_image_transform, reset_audio_transform,
    set_image_transform_at_call, set_audio_transform_at_call,
    apply_image_transform_at_call, apply_audio_transform_at_call,
    set_transform, apply_transform, tweened_new.
  rewrite Hname. cbn [mbind option_bind].
  repeat (split; [first [reflexivity | assumption]|]). assumption.
Qed.

(** X7.  [set_image_transform(index, ...)] replaces the entry of that layer
    by a tween that starts at the value the layer showed and ends at the
    given transform; the entries of all other layers, both roots, the audio
    map and the mode are left as they were. *)
Theorem set_layer_touches_one_entry s s' index (x : I) d name :
  set_image_transform_at index x d name s = Some s' ->
  source_ (entry (image_transforms_ s') index) = fetch (entry (image_transforms_ s) index) /\
  dest_ (entry (image_transforms_ s') index) = x /\
  duration_ (entry (image_transforms_ s') index) = d /\
  time_ (entry (image_transforms_ s') index) = 0 /\
  (forall j, j <> index -> image_transforms_ s' !! j = image_transforms_ s !! j) /\
  root_image_transform_ s' = root_image_transform_ s /\
  root_audio_transform_ s' = root_audio_transform_ s /\
  audio_transforms_ s' = audio_transforms_ s /\
  format_desc_mode s' = format_desc_mode s.
Proof.
  unfold set_image_transform_at, set_transform, tweened_new.
  destruct (get_tweener name) as [tw|]; [|discriminate].
  cbn. intros [= <-]. cbn [image_transforms_ with_image_transforms].
  rewrite entry_insert. repeat split.
  intros j Hj. now rewrite lookup_insert_ne.
Qed.

(** X8.  [reset_image_transform] keeps the set of layers that have an
    entry; each entry, and the root, becomes a tween from the value it
    showed to the default transform, with the given duration and elapsed 0.
    A layer without an entry gets none, and the audio side is untouched. *)
Theorem reset_retargets_every_entry s s' d name :
  reset_image_transform d name s = Some s' ->
  let retargeted (old new : tweened_transform I) :=
    source_ new = fetch old /\ dest_ new = transform_default /\
    duration_ new = d /\ time_ new = 0 in
  retargeted (root_image_transform_ s) (root_image_transform_ s') /\
  (forall i old, image_transforms_ s !! i = Some old ->
     exists new, image_transforms_ s' !! i = Some new /\ retargeted old new) /\
  (forall i, image_transforms_ s !! i = None -> image_transforms_ s' !! i = None) /\
  root_audio_transform_ s' = root_audio_transform_ s /\
  audio_transforms_ s' = audio_transforms_ s.
Proof.
  unfold reset_image_transform.
  destruct (get_tweener name) as [tw|]; [|discriminate].
  cbn. intros [= <-]. cbn.
  repeat split.
  - intros i old Hi. rewrite lookup_fmap, Hi. cbn. eexists. repeat split.
  - intros i Hi. now rewrite lookup_fmap, Hi.
Qed.

End MixerMore.

(** ** The two passes of a tick *)

Section PassesMore.
Context `{Tweeners} {I A : Type} `{!Transform I} `{!Transform A}.
Implicit Types (s : mixer I A) (f : basic_frame).

Lemma entry_insert_ne {T} `{!Transform T} (m : gmap Z (tweened_transform T)) i j t :
  i <> j -> entry (<[i := t]> m) j = entry m j.
Proof. intros Hij. unfold entry. now rewrite lookup_insert_ne. Qed.

Lemma mix_image_frame_audio_side f s :
  audio_side (snd (mix_image_frame f s)) = audio_side s.
Proof.
  rewrite mix_image_frame_eq.
  destruct (is_progressive (format_desc_mode s)); reflexivity.
Qed.

Lemma mix_image_audio_side frames s :
  audio_side (snd (mix_image frames s)) = audio_side s.
Proof.
  unfold mix_image. generalize (remove_empty_eof frames). intros l.
  revert s. induction l as [|f l IH]; intros s; [reflexivity|].
  now rewrite for_each_cons, IH, mix_image_frame_audio_side.
Qed.

Lemma mix_audio_image_side frames s :
  image_side (snd (mix_audio frames s)) = image_side s.
Proof.
  unfold mix_audio. revert s. induction frames as [|f l IH]; intros s; [reflexivity|].
  rewrite for_each_cons, IH. reflexivity.
Qed.

(** The audio pass is a function of the audio side alone. *)
Lemma mix_audio_reads_audio_side frames s1 s2 :
  audio_side s1 = audio_side s2 ->
  fst (mix_audio frames s1) = fst (mix_audio frames s2) /\
  audio_side (snd (mix_audio frames s1)) = audio_side (snd (mix_audio frames s2)).
Proof.
  unfold mix_audio. revert s1 s2.
  induction frames as [|f l IH]; intros s1 s2 E; [split; [reflexivity|exact E]|].
  assert (E1 : fst (mix_audio_frame f s1) = fst (mix_audio_frame f s2) /\
               audio_side (snd (mix_audio_frame f s1)) = audio_side (snd (mix_audio_frame f s2))).
  { rewrite !mix_audio_frame_eq. cbv zeta. unfold audio_side in *. cbn.
    injection E as Em Er Et. rewrite Em, Er, Et. split; reflexivity. }
  destruct E1 as [Ev Es]. specialize (IH _ _ Es).
  rewrite !for_each_cons. split; [|apply IH].
  cbn [for_each]. unfold mbind, M_bind.
  destruct (mix_audio_frame f s1) as [b1 t1], (mix_audio_frame f s2) as [b2 t2].
  cbn [fst snd] in *.
  destruct (for_each mix_audio_frame l t1) as [bs1 u1],
           (for_each mix_audio_frame l t2) as [bs2 u2].
  cbn in *. destruct IH as [IHv _]. now rewrite Ev, IHv.
Qed.

Lemma send_splits frames s :
  fst (send frames s) = (fst (mix_image frames s), fst (mix_audio frames s)) /\
  image_side (snd (send frames s)) = image_side (snd (mix_image frames s)) /\
  audio_side (snd (send frames s)) = audio_side (snd (mix_audio frames s)).
Proof.
  pose proof (mix_image_audio_side frames s) as Ha.
  unfold send, mbind, M_bind.
  destruct (mix_image frames s) as [image s1]. cbn [fst snd] in *.
  pose proof (mix_audio_reads_audio_side frames s1 s Ha) as [Ev Es].
  pose proof (mix_audio_image_side frames s1) as Hi.
  destruct (mix_audio frames s1) as [audio s2]. cbn [fst snd] in *.
  cbn. rewrite Ev. repeat split; assumption.
Qed.

(** X9.  The two passes of a tick do not interfere: what [send] publishes is
    the output of the image pass and the output the audio pass would give on
    the mixer as it was before the tick, and afterwards the image tweens are
    those the image pass leaves and the audio tweens those the audio pass
    leaves. *)
Theorem send_passes_are_independent frames s :
  fst (send frames s) = (fst (mix_image frames s), fst (mix_audio frames s)) /\
  image_side (snd (send frames s)) = image_side (snd (mix_image frames s)) /\
  audio_side (snd (send frames s)) = audio_side (snd (mix_audio frames s)).
Proof. apply send_splits. Qed.

Lemma filter_filter_length {X} (p q : X -> bool) (l : list X) :
  (length (List.filter p (List.filter q l)) <= length (List.filter p l))%nat.
Proof.
  induction l as [|x l IH]; [reflexivity|]. cbn [List.filter].
  destruct (q x), (p x) eqn:Ep; cbn [List.filter length]; rewrite ?Ep; cbn; lia.
Qed.

Lemma mix_image_frame_entry_other f s j :
  get_layer_index f <> j ->
  entry (image_transforms_ (snd (mix_image_frame f s))) j = entry (image_transforms_ s) j.
Proof.
  intros Hj. rewrite mix_image_frame_eq.
  destruct (is_progressive (format_desc_mode s)); cbn [negb]; cbv zeta;
    repeat (rewrite !image_evaluation_eq;
            cbn [fst snd image_transforms_ with_image_transforms with_root_image]);
    now rewrite !entry_insert_ne.
Qed.

Lemma mix_audio_frame_entry_other f s j :
  get_layer_index f <> j ->
  entry (audio_transforms_ (snd (mix_audio_frame f s))) j = entry (audio_transforms_ s) j.
Proof.
  intros Hj. rewrite mix_audio_frame_eq.
  cbn [snd audio_transforms_ with_audio_transforms with_root_audio].
  now rewrite entry_insert_ne.
Qed.

Lemma for_each_image_entry l s j :
  entry (image_transforms_ (snd (for_each mix_image_frame l s))) j =
  ticks 1 (length (List.filter (fun f => get_layer_index f =? j) l)
           * Z.to_nat (steps (format_desc_mode s)))
        (entry (image_transforms_ s) j).
Proof.
  revert s. induction l as [|f l IH]; intros s; [reflexivity|].
  rewrite for_each_cons, IH, mix_image_frame_mode. cbn [List.filter].
  destruct (Z.eqb_spec (get_layer_index f) j) as [<-|Hne].
  - rewrite mix_image_frame_entry. cbn [length Nat.mul]. now rewrite ticks_add.
  - now rewrite mix_image_frame_entry_other.
Qed.

Lemma for_each_audio_entry l s j :
  entry (audio_transforms_ (snd (for_each mix_audio_frame l s))) j =
  ticks (steps (format_desc_mode s))
        (length (List.filter (fun f => get_layer_index f =? j) l))
        (entry (audio_transforms_ s) j).
Proof.
  revert s. induction l as [|f l IH]; intros s; [reflexivity|].
  rewrite for_each_cons, IH, mix_audio_frame_mode. cbn [List.filter].
  destruct (Z.eqb_spec (get_layer_index f) j) as [<-|Hne].
  - rewrite mix_audio_frame_entry. reflexivity.
  - now rewrite mix_audio_frame_entry_other.
Qed.

(** X10.  In one tick the image tween of layer [j] is ticked once (twice in
    an interlaced mode) for every surviving frame whose layer index is [j],
    and the audio tween of layer [j] receives one [fetch_and_tick(n)] for
    every frame of the vector with that index: several frames on one layer
    advance its tweens several times, and a layer with no frame in the tick
    keeps its tweens where they were. *)
Theorem layer_ticks_per_frame_on_layer frames s j :
  let on_layer l := length (List.filter (fun f => get_layer_index f =? j) l) in
  let n := steps (format_desc_mode s) in
  entry (image_transforms_ (snd (send frames s))) j =
    ticks 1 (on_layer (remove_empty_eof frames) * Z.to_nat n)
          (entry (image_transforms_ s) j) /\
  entry (audio_transforms_ (snd (send frames s))) j =
    ticks n (on_layer frames) (entry (audio_transforms_ s) j).
Proof.
  cbv zeta.
  destruct (send_splits frames s) as (_ & Ei & Ea).
  unfold image_side, audio_side in *.
  injection Ei as _ _ Ei. injection Ea as _ _ Ea. rewrite Ei, Ea.
  unfold mix_image, mix_audio.
  rewrite for_each_image_entry, for_each_audio_entry.
  split; reflexivity.
Qed.

Lemma mix_image_frame_item f s : item_frame (fst (mix_image_frame f s)) = f.
Proof.
  rewrite mix_image_frame_eq.
  destruct (is_progressive (format_desc_mode s)); cbn [negb]; cbv zeta; cbn [fst];
    [reflexivity|].
  match goal with |- context [transform_neq ?a ?b] => destruct (transform_neq a b) end;
    reflexivity.
Qed.

Lemma for_each_map {B} (body : basic_frame -> M B) (g : B -> basic_frame) l s :
  (forall f s', g (fst (body f s')) = f) ->
  List.map g (fst (for_each body l s)) = l.
Proof.
  intros Hg. revert s. induction l as [|f l IH]; intros s; [reflexivity|].
  cbn [for_each]. unfold mbind, M_bind.
  specialize (Hg f s). destruct (body f s) as [b s1].
  specialize (IH s1). destruct (for_each body l s1) as [bs s2].
  cbn in *. now rewrite Hg, IH.
Qed.

(** X11.  The image mixer is handed one item for each surviving frame, in
    the order of the vector (so that order is the z-order), and the audio
    mixer one child for every frame of the vector, in the same order. *)
Theorem passes_keep_vector_order frames s :
  List.map item_frame (fst (mix_image frames s)) = remove_empty_eof frames /\
  List.map child_of (fst (mix_audio frames s)) = frames.
Proof.
  split.
  - apply for_each_map. apply mix_image_frame_item.
  - apply for_each_map. intros f s'. reflexivity.
Qed.

Lemma remove_empty_eof_app l1 l2 :
  remove_empty_eof (l1 ++ l2) = remove_empty_eof l1 ++ remove_empty_eof l2.
Proof. unfold remove_empty_eof. now rewrite !List.filter_app. Qed.

Lemma remove_empty_eof_cons e l :
  remove_empty_eof (e :: l) =
  if is_empty e || is_eof_frame e then remove_empty_eof l
  else e :: remove_empty_eof l.
Proof.
  unfold remove_empty_eof. cbn [List.filter].
  destruct (is_empty e); cbn [negb orb List.filter]; [reflexivity|].
  destruct (is_eof_frame e); reflexivity.
Qed.

(** X12.  An EMPTY or EOF frame anywhere in the vector makes no difference
    to the image pass: the accepted items and the mixer afterwards are those
    of the vector without it. *)
Theorem image_pass_ignores_empty_and_eof l1 l2 e s :
  frame_tag_of e <> tag_data ->
  mix_image (l1 ++ e :: l2) s = mix_image (l1 ++ l2) s.
Proof.
  intros He. unfold mix_image.
  rewrite !remove_empty_eof_app.
  replace (remove_empty_eof (e :: l2)) with (remove_empty_eof l2); [reflexivity|].
  rewrite remove_empty_eof_cons. unfold is_empty, is_eof_frame.
  destruct (frame_tag_of e); [reflexivity|reflexivity|congruence].
Qed.

(** X13.  In an interlaced mode, a frame whose root tween and layer tween
    have both reached their duration is not interlaced: with a comparison
    that finds a transform equal to itself, the two evaluations agree, the
    second child is accepted alone, and the tweens are left as they were. *)
Theorem resting_tweens_are_not_interlaced f s :
  (forall a : I, transform_neq a a = false) ->
  is_progressive (format_desc_mode s) = false ->
  let root := root_image_transform_ s in
  let layer := entry (image_transforms_ s) (get_layer_index f) in
  no_overflow root -> time_ root = duration_ root ->
  no_overflow layer -> time_ layer = duration_ layer ->
  fst (mix_image_frame f s) =
    single_item (mk_child f (transform_mul (fetch root) (fetch layer))) /\
  root_image_transform_ (snd (mix_image_frame f s)) = root /\
  entry (image_transforms_ (snd (mix_image_frame f s))) (get_layer_index f) = layer.
Proof.
  intros Hneq Hmode root layer Hr Hrr Hl Hlr.
  rewrite mix_image_frame_root, mix_image_frame_entry.
  fold root layer. rewrite !ticks_at_rest by (assumption || lia).
  split; [|split; reflexivity].
  rewrite mix_image_frame_eq, Hmode. cbn [negb]. cbv zeta.
  rewrite !image_evaluation_eq.
  cbn [fst snd image_transforms_ with_image_transforms with_root_image
       root_image_transform_].
  rewrite entry_insert. fold root layer.
  rewrite !tick_at_rest by (assumption || lia).
  now rewrite Hneq.
Qed.

End PassesMore.

(** ** Scalar tweens with the linear easing *)

Section ScalarMore.
Import Scalar.

Abbreviation fresh_mixer := (mixer_new (image_transform := Q) (audio_transform := Q)).

(** X4.  On scalar transforms with the linear easing, a
    [set_image_transform] with duration 0 never shows: whatever the target
    and however many ticks follow, the root goes on showing the value it
    showed before the call. *)
Theorem zero_duration_set_never_shows (s : mixer Q Q) (x : Q) (k : nat) :
  exists s',
    set_image_transform x 0 "linear" s = Some s' /\
    dest_ (root_image_transform_ s') = x /\
    (fetch (ticks 1 k (root_image_transform_ s')) == fetch (root_image_transform_ s))%Q.
Proof.
  eexists. split; [reflexivity|]. split; [reflexivity|].
  cbn [root_image_transform_ with_root_image].
  apply scalar_zero_duration_shows_source.
Qed.

(** X5.  On scalar transforms with the linear easing, neither
    [set_image_transform] nor [apply_image_transform] makes the displayed
    value jump: right after the call, whatever the duration, the root shows
    the value it showed before. *)
Theorem retargeting_does_not_jump (s : mixer Q Q) (x : Q) (fn : Q -> Q) (d : Z) :
  exists s1 s2,
    set_image_transform x d "linear" s = Some s1 /\
    apply_image_transform fn d "linear" s = Some s2 /\
    (fetch (root_image_transform_ s1) == fetch (root_image_transform_ s))%Q /\
    (fetch (root_image_transform_ s2) == fetch (root_image_transform_ s))%Q /\
    dest_ (root_image_transform_ s2) = fn (fetch (root_image_transform_ s)).
Proof.
  eexists _, _. split; [reflexivity|]. split; [reflexivity|].
  cbn [root_image_transform_ with_root_image].
  repeat split; apply linear_at_zero.
Qed.

Lemma tween_at_rest_is_stable_witness :
  let t := ticks 1 10 (root_image_transform_ (started progressive)) in
  no_overflow t /\ time_ t = duration_ t /\ 0 <= 2 <= 2 /\
  ticks 2 7 t = t /\ fetch_and_tick 2 t = (fetch t, t).
Proof.
  intros t.
  assert (H1 : no_overflow t) by (vm_compute; intuition discriminate).
  assert (H2 : time_ t = duration_ t) by reflexivity.
  assert (H3 : 0 <= 2 <= 2) by lia.
  exact (conj H1 (conj H2 (conj H3 (tween_at_rest_is_stable t 2 7 H1 H2 H3)))).
Defined.

Lemma negative_duration_pulls_time_back_witness :
  let t := mk_tweened 1%Q (1 # 2)%Q (-3) 0 linear in
  tweened_new 1%Q (1 # 2)%Q (-3) "linear" = Some t /\
  Int.INT_MIN <= -3 < 0 /\ 0 <= 1 <= 2 /\
  time_ t = 0 /\ time_ (ticks 1 (S 4) t) = -3.
Proof.
  intros t.
  assert (H1 : tweened_new 1%Q (1 # 2)%Q (-3) "linear" = Some t) by reflexivity.
  assert (H2 : Int.INT_MIN <= -3 < 0) by (unfold Int.INT_MIN; lia).
  assert (H3 : 0 <= 1 <= 2) by lia.
  exact (conj H1 (conj H2 (conj H3
    (negative_duration_pulls_time_back 1%Q (1 # 2)%Q (-3) "linear" t 1 4 H1 H2 H3)))).
Defined.

Lemma unknown_easing_throws_after_operator_index_witness :
  let s := started upper in
  get_tweener "easeinsine" = None /\
  set_image_transform (1 # 4)%Q 5 "easeinsine" s = None /\
  image_transforms_ s !! 3 = None /\
  set_image_transform_at_call 3 (1 # 4)%Q 5 "easeinsine" s = throws (touch_image 3 s) /\
  image_transforms_ (touch_image 3 s) !! 3 = Some tweened_default /\
  root_image_transform_ (touch_image 3 s) = root_image_transform_ s.
Proof.
  intros s.
  assert (Hname : get_tweener "easeinsine" = None) by reflexivity.
  destruct (unknown_easing_throws_after_operator_index s (1 # 4)%Q (1 # 4)%Q
              (fun x => x) (fun x => x) 3 5 "easeinsine" Hname)
    as (E1 & _ & _ & _ & _ & _ & E7 & _ & _ & _ & _ & _ & E13 & _ & E15 & _).
  exact (conj Hname (conj E1 (conj eq_refl (conj E7 (conj E13 E15))))).
Defined.

Lemma set_layer_touches_one_entry_witness :
  let s := started upper in
  exists s',
    set_image_transform_at 3 (1 # 4)%Q 5 "linear" s = Some s' /\
    dest_ (entry (image_transforms_ s') 3) = (1 # 4)%Q /\
    root_image_transform_ s' = root_image_transform_ s.
Proof.
  intros s. eexists. split; [reflexivity|].
  match goal with |- context [entry (image_transforms_ ?s') 3] =>
    destruct (set_layer_touches_one_entry s s' 3 (1 # 4)%Q 5 "linear" eq_refl)
      as (_ & E2 & _ & _ & _ & E6 & _) end.
  exact (conj E2 E6).
Defined.

Lemma reset_retargets_every_entry_witness :
  let s := default (started upper) (set_image_transform_at 3 (1 # 4)%Q 5 "linear" (started upper)) in
  exists s',
    reset_image_transform 8 "linear" s = Some s' /\
    dest_ (root_image_transform_ s') = 1%Q /\
    duration_ (root_image_transform_ s') = 8 /\
    image_transforms_ s' !! 7 = None.
Proof.
  intros s. eexists. split; [reflexivity|].
  match goal with |- context [root_image_transform_ ?s'] =>
    destruct (reset_retargets_every_entry s s' 8 "linear" eq_refl)
      as ((_ & E1 & E2 & _) & _ & E3 & _) end.
  exact (conj E1 (conj E2 (E3 7 eq_refl))).
Defined.

Lemma image_pass_ignores_empty_and_eof_witness :
  let s := started upper in
  frame_tag_of eof_frame <> tag_data /\
  mix_image ([data_frame 0 1] ++ eof_frame :: [data_frame 1 2]) s
  = mix_image ([data_frame 0 1] ++ [data_frame 1 2]) s.
Proof.
  intros s.
  assert (H1 : frame_tag_of eof_frame <> tag_data) by discriminate.
  exact (conj H1 (image_pass_ignores_empty_and_eof
                    [data_frame 0 1] [data_frame 1 2] eof_frame s H1)).
Defined.

Lemma resting_tweens_are_not_interlaced_witness :
  let s := fresh_mixer upper in
  let f := data_frame 0 1 in
  (forall a : Q, transform_neq a a = false) /\
  is_progressive (format_desc_mode s) = false /\
  is_interlaced_item (fst (mix_image_frame f s)) = false /\
  root_image_transform_ (snd (mix_image_frame f s)) = root_image_transform_ s.
Proof.
  intros s f.
  assert (H0 : forall a : Q, transform_neq a a = false).
  { intros a. cbn. now rewrite (proj2 (Qeq_bool_iff a a) (Qeq_refl a)). }
  assert (H1 : is_progressive (format_desc_mode s) = false) by reflexivity.
  assert (H2 : no_overflow (root_image_transform_ s)) by (vm_compute; intuition discriminate).
  assert (H3 : no_overflow (entry (image_transforms_ s) (get_layer_index f)))
    by (vm_compute; intuition discriminate).
  destruct (resting_tweens_are_not_interlaced f s H0 H1 H2 eq_refl H3 eq_refl)
    as (E1 & E2 & _).
  refine (conj H0 (conj H1 (conj _ E2))).
  rewrite E1. reflexivity.
Defined.

End ScalarMore.

(** ** Opening the container *)

Section PumpMore.
Import Input.
Context {C : Type} (lib : libav C).
Implicit Types s : implementation C.

Lemma find_skips type pre rest :
  Forall (not_of_type type) pre ->
  List.find (fun st => match st with
                       | Some st' => codec_type (codec st') =? type
                       | None => false
                       end) (pre ++ rest)
  = List.find (fun st => match st with
                         | Some st' => codec_type (codec st') =? type
                         | None => false
                         end) rest.
Proof.
  induction 1 as [|x pre Hx _ IH]; [reflexivity|].
  cbn [app List.find]. destruct x as [st|]; [|exact IH].
  cbn in Hx. now destruct (Z.eqb_spec (codec_type (codec st)) type).
Qed.

Lemma open_stream_absent c type s_index :
  Forall (not_of_type type) (streams lib c) ->
  open_stream lib c type s_index = (None, s_index).
Proof.
  intros Hall. unfold open_stream.
  rewrite <- (app_nil_r (streams lib c)), (find_skips type _ [] Hall). reflexivity.
Qed.

(** X14.  [open_stream] looks at the first stream of the wanted type only.
    [s_index] becomes the index of that stream whether or not its codec
    opens; the context is that stream's codec when a decoder exists and
    [avcodec_open] does not fail, and null otherwise (a later stream of the
    same type is not tried). *)
Theorem open_stream_takes_first_of_type c type s_index pre st post :
  streams lib c = pre ++ Some st :: post ->
  Forall (not_of_type type) pre ->
  codec_type (codec st) = type ->
  open_stream lib c type s_index =
    (if avcodec_find_decoder lib (codec_id (codec st))
        && negb (failed (avcodec_open lib (codec st)))
     then Some (codec st) else None,
     index st).
Proof.
  intros Hs Hpre Ht. unfold open_stream. rewrite Hs, find_skips by assumption.
  cbn [List.find]. rewrite Ht, Z.eqb_refl.
  destruct (avcodec_find_decoder lib (codec_id (codec st))); [|reflexivity].
  destruct (failed (avcodec_open lib (codec st))); reflexivity.
Qed.

(** X15.  When the container has no stream of the wanted type,
    [open_stream] returns null and leaves [s_index] as it was (-1 in the
    constructor). *)
Theorem open_stream_without_stream_of_type c type s_index :
  Forall (not_of_type type) (streams lib c) ->
  open_stream lib c type s_index = (None, s_index).
Proof. apply open_stream_absent. Qed.

(** X16.  The error test [(errn = -rc) > 0] is the test [rc < 0] for every
    return code but [INT_MIN]. *)
Theorem failed_iff_negative (rc : Z) :
  Int.INT_MIN < rc <= Int.INT_MAX ->
  (failed rc = true <-> rc < 0).
Proof.
  intros Hrc. unfold failed.
  rewrite wrap_id by (unfold Int.in_range, Int.INT_MIN, Int.INT_MAX in *; lia).
  rewrite Z.ltb_lt. lia.
Qed.

Lemma construct_returned graph filename loop s :
  construct lib graph filename loop = Returned s ->
  exists video audio vi ai,
    open_stream lib (format_context_ s) CODEC_TYPE_VIDEO (-1) = (video, vi) /\
    open_stream lib (format_context_ s) CODEC_TYPE_AUDIO (-1) = (audio, ai) /\
    fix_time_base video = Returned (video_codec_context_ s) /\
    (is_null (video_codec_context_ s) && is_null audio = false) /\
    s = mk_impl graph (format_context_ s) (video_codec_context_ s) audio loop vi ai
          [] [] 0%nat (mk_executor true 1).
Proof.
  unfold construct.
  destruct (av_open_input_file lib filename) as [rc c0].
  destruct (failed rc); [discriminate|].
  destruct (av_find_stream_info lib c0) as [rc' c].
  destruct (failed rc'); [discriminate|].
  destruct (open_stream lib c CODEC_TYPE_VIDEO (-1)) as [video vi] eqn:Ev.
  assert (Hfirst : (if video is Some _ then fix_time_base video else Returned video)
                   = fix_time_base video) by (destruct video; reflexivity).
  rewrite Hfirst. unfold mbind, outcome_bind.
  destruct (fix_time_base video) as [video1| | |] eqn:E1; try discriminate.
  destruct (open_stream lib c CODEC_TYPE_AUDIO (-1)) as [audio ai] eqn:Ea.
  assert (Hsecond : (if audio is Some _ then fix_time_base video1 else Returned video1)
                    = Returned video1).
  { destruct audio; [|reflexivity]. eapply fix_time_base_idempotent; eassumption. }
  rewrite Hsecond.
  destruct (is_null video1 && is_null audio) eqn:En; [discriminate|].
  intros [= <-]. cbn [format_context_ video_codec_context_].
  exists video, audio, vi, ai. rewrite Ev, Ea. repeat split; assumption.
Qed.

Lemma get_packet_configuration s (b : which_buffer) :
  loop_ (snd (get_packet b s)) = loop_ s /\
  video_s_index_ (snd (get_packet b s)) = video_s_index_ s /\
  audio_s_index_ (snd (get_packet b s)) = audio_s_index_ s /\
  video_codec_context_ (snd (get_packet b s)) = video_codec_context_ s /\
  audio_codex_context_ (snd (get_packet b s)) = audio_codex_context_ s.
Proof.
  unfold get_packet.
  destruct b, s as [g c v a l vi ai vq aq n e]; cbn;
    [destruct vq|destruct aq]; cbn; repeat split.
Qed.

Lemma read_file_keeps_configuration s :
  loop_ (read_file lib s) = loop_ s /\
  video_s_index_ (read_file lib s) = video_s_index_ s /\
  audio_s_index_ (read_file lib s) = audio_s_index_ s /\
  video_codec_context_ (read_file lib s) = video_codec_context_ s /\
  audio_codex_context_ (read_file lib s) = audio_codex_context_ s.
Proof.
  unfold read_file.
  destruct (av_read_frame lib (format_context_ s)) as [[rc p] c].
  destruct (0 <=? rc).
  - cbn [video_s_index_ audio_s_index_ with_format_context].
    destruct (stream_index p =? video_s_index_ s);
      [|destruct (stream_index p =? audio_s_index_ s)]; cbn; repeat split.
  - destruct (loop_ (with_format_context c s)); cbn [negb].
    + rewrite seek_frame_eq. cbv zeta.
      match goal with |- context [negb ?b] => destruct b end; cbn; repeat split.
    + cbn. repeat split.
Qed.

(** X17.  The constructor starts the worker before it returns, so the
    caller may see the object after some runs of [read_file]; whatever runs
    of [read_file] and calls of [get_packet] have happened since the
    constructor built it, the object holds at least one codec context, and
    its codec contexts, stream indices and loop flag are those the
    constructor set. *)
Theorem constructed_object_keeps_its_contexts graph filename loop s0 s :
  construct lib graph filename loop = Returned s0 ->
  steps_to lib s0 s ->
  (video_codec_context_ s <> None \/ audio_codex_context_ s <> None) /\
  fix_time_base (fst (open_stream lib (format_context_ s0) CODEC_TYPE_VIDEO (-1)))
    = Returned (video_codec_context_ s) /\
  fst (open_stream lib (format_context_ s0) CODEC_TYPE_AUDIO (-1))
    = audio_codex_context_ s /\
  snd (open_stream lib (format_context_ s0) CODEC_TYPE_VIDEO (-1)) = video_s_index_ s /\
  snd (open_stream lib (format_context_ s0) CODEC_TYPE_AUDIO (-1)) = audio_s_index_ s /\
  loop_ s = loop.
Proof.
  intros Hc Hsteps.
  destruct (construct_returned _ _ _ _ Hc)
    as (video & audio & vi & ai & Ev & Ea & Ef & Hn & E).
  assert (Hinv : video_codec_context_ s = video_codec_context_ s0 /\
                 audio_codex_context_ s = audio_codex_context_ s0 /\
                 video_s_index_ s = video_s_index_ s0 /\
                 audio_s_index_ s = audio_s_index_ s0 /\
                 loop_ s = loop_ s0).
  { clear - Hsteps. induction Hsteps as [s|s1 s2 s3 H12 _ IH]; [repeat split|].
    destruct IH as (I1 & I2 & I3 & I4 & I5).
    rewrite I1, I2, I3, I4, I5.
    destruct H12 as [s1 Hrun|b s1].
    - destruct (read_file_keeps_configuration s1) as (R1 & R2 & R3 & R4 & R5).
      repeat split; assumption.
    - destruct (get_packet_configuration s1 b) as (R1 & R2 & R3 & R4 & R5).
      repeat split; assumption. }
  destruct Hinv as (I1 & I2 & I3 & I4 & I5).
  rewrite I1, I2, I3, I4, I5, Ev, Ea. cbn [fst snd].
  rewrite E in *. cbn in *.
  split; [|repeat split; assumption].
  destruct (video_codec_context_ s0), audio; cbn in Hn;
    try discriminate; auto; left; discriminate.
Qed.

(** X18.  When the container has neither a video nor an audio stream (and
    the two library calls before succeed), the constructor throws
    [file_read_error], "No video or audio codec context found.". *)
Theorem construct_throws_without_streams graph filename loop :
  let opened := av_open_input_file lib filename in
  let info := av_find_stream_info lib (snd opened) in
  failed (fst opened) = false ->
  failed (fst info) = false ->
  Forall (not_of_type CODEC_TYPE_VIDEO) (streams lib (snd info)) ->
  Forall (not_of_type CODEC_TYPE_AUDIO) (streams lib (snd info)) ->
  construct lib graph filename loop =
    Thrown (file_read_error "No video or audio codec context found.").
Proof.
  cbv zeta. unfold construct.
  destruct (av_open_input_file lib filename) as [rc c0]. cbn [fst snd].
  intros ->.
  destruct (av_find_stream_info lib c0) as [rc' c]. cbn [fst snd].
  intros -> Hv Ha.
  rewrite (open_stream_absent _ _ _ Hv), (open_stream_absent _ _ _ Ha).
  reflexivity.
Qed.

(** X19.  The constructor repairs the video context only: the audio context
    it keeps is the audio stream's codec exactly as [open_stream] returned
    it, time base included, and the two stream indices are those
    [open_stream] left. *)
Theorem construct_keeps_audio_time_base graph filename loop s :
  construct lib graph filename loop = Returned s ->
  open_stream lib (format_context_ s) CODEC_TYPE_AUDIO (-1)
    = (audio_codex_context_ s, audio_s_index_ s) /\
  snd (open_stream lib (format_context_ s) CODEC_TYPE_VIDEO (-1)) = video_s_index_ s.
Proof.
  intros Hc. destruct (construct_returned _ _ _ _ Hc)
    as (video & audio & vi & ai & Ev & Ea & _ & _ & E).
  rewrite E in *. cbn in *. rewrite Ev, Ea. split; reflexivity.
Qed.

End PumpMore.

(** ** The repaired time base and [fps] *)

Section RateMore.
Import Input.
Context {C : Type}.
Implicit Types s : implementation C.

Lemma ilog10_fuel_bounds fuel n :
  1 <= n < 10 ^ Z.of_nat fuel ->
  0 <= ilog10_fuel fuel n /\
  10 ^ ilog10_fuel fuel n <= n < 10 ^ (ilog10_fuel fuel n + 1).
Proof.
  revert n. induction fuel as [|fuel IH]; intros n Hn; [cbn in Hn; lia|].
  cbn [ilog10_fuel]. destruct (Z.ltb_spec n 10) as [Hlt|Hge]; [cbn; lia|].
  rewrite Nat2Z.inj_succ, Z.pow_succ_r in Hn by lia.
  pose proof (Z.div_mod n 10 ltac:(lia)) as Hdm.
  pose proof (Z.mod_pos_bound n 10 ltac:(lia)) as Hmod.
  destruct (IH (n / 10)) as (Hk & Hlo & Hhi).
  { generalize dependent (10 ^ Z.of_nat fuel). intros P HP. lia. }
  set (k := ilog10_fuel fuel (n / 10)) in *.
  split; [lia|].
  replace (1 + k) with (Z.succ k) by lia.
  replace (Z.succ k + 1) with (Z.succ (k + 1)) by lia.
  rewrite !Z.pow_succ_r by lia.
  generalize dependent (10 ^ k). intros Pk Hlo.
  generalize dependent (10 ^ (k + 1)). intros Pk1 Hhi. lia.
Qed.

Lemma fix_time_base_unit c :
  num (time_base c) = 1 -> 1 <= den (time_base c) <= LOG10_EXACT_MAX ->
  exists k,
    0 <= k /\ 10 ^ k <= den (time_base c) < 10 ^ (k + 1) /\
    fix_time_base (Some c) =
      Returned (Some (mk_codec_context (codec_type c) (codec_id c)
                        (mk_rational (pow10_trunc (k - 1)) (den (time_base c))))).
Proof.
  intros Hnum Hden.
  destruct (ilog10_fuel_bounds 10 (den (time_base c))) as (Hk & Hb).
  { unfold LOG10_EXACT_MAX in Hden. cbn. lia. }
  exists (ilog10_fuel 10 (den (time_base c))). split; [exact Hk|]. split; [exact Hb|].
  cbn [fix_time_base]. rewrite Hnum. cbn [Z.eqb Pos.eqb]. unfold log10_trunc.
  destruct (Z.leb_spec (den (time_base c)) 0); [lia|].
  destruct (Z.leb_spec (den (time_base c)) LOG10_EXACT_MAX); [reflexivity|lia].
Qed.

(** X20.  For a video time base [1/den] with [den] of two to six digits
    (where the single-precision logarithm of the code is the exact one), the
    repair leaves a frame rate of two digits: [fps] of an object holding the
    repaired context is finite, at least 10 and below 100. *)
Theorem repaired_rate_has_two_digits s c :
  num (time_base c) = 1 ->
  10 <= den (time_base c) <= 999999 ->
  fix_time_base (Some c) = Returned (video_codec_context_ s) ->
  exists q, fps s = Returned (finite q) /\ (10 <= q)%Q /\ (q < 100)%Q.
Proof.
  intros Hnum Hden Hfix.
  destruct (fix_time_base_unit c Hnum ltac:(unfold LOG10_EXACT_MAX; lia))
    as (k & Hk & Hb & E).
  rewrite E in Hfix. injection Hfix as Hv.
  assert (1 <= k).
  { destruct (Z.eq_dec k 0) as [->|]; [cbn in Hb; lia|lia]. }
  unfold fps. rewrite <- Hv. cbn [time_base num den].
  unfold pow10_trunc. destruct (Z.ltb_spec (k - 1) 0); [lia|].
  set (p := 10 ^ (k - 1)).
  assert (Hp : 0 < p) by (apply Z.pow_pos_nonneg; lia).
  assert (Hlo : 10 * p <= den (time_base c) < 100 * p).
  { replace k with (Z.succ (k - 1)) in Hb at 1 by lia.
    replace (k + 1) with (Z.succ (Z.succ (k - 1))) in Hb by lia.
    rewrite !Z.pow_succ_r in Hb by lia. fold p in Hb. lia. }
  destruct (Z.eqb_spec p 0); [lia|].
  eexists. split; [reflexivity|].
  assert (Hq : (0 < inject_Z p)%Q) by (change 0%Q with (inject_Z 0); now rewrite <- Zlt_Qlt).
  split.
  - apply Qle_shift_div_l; [exact Hq|].
    change 10%Q with (inject_Z 10). rewrite <- inject_Z_mult, <- Zle_Qle. lia.
  - apply Qlt_shift_div_r; [exact Hq|].
    change 100%Q with (inject_Z 100). rewrite <- inject_Z_mult, <- Zlt_Qlt. lia.
Qed.

(** X21.  For a video time base [1/den] with [den] below 10 the repair
    writes the numerator 0: the rate [fps] then divides by zero and is not
    a finite number. *)
Theorem one_digit_denominator_loses_the_rate s c :
  num (time_base c) = 1 ->
  1 <= den (time_base c) <= 9 ->
  fix_time_base (Some c) = Returned (video_codec_context_ s) ->
  (exists c', video_codec_context_ s = Some c' /\
              num (time_base c') = 0 /\ den (time_base c') = den (time_base c)) /\
  fps s = Returned not_finite.
Proof.
  intros Hnum Hden Hfix.
  destruct (fix_time_base_unit c Hnum ltac:(unfold LOG10_EXACT_MAX; lia)) as (k & Hk & Hb & E).
  rewrite E in Hfix. injection Hfix as Hv.
  assert (k = 0) as ->.
  { destruct (Z.eq_dec k 0) as [|Hne]; [assumption|].
    assert (10 ^ 1 <= 10 ^ k) by (apply Z.pow_le_mono_r; lia). lia. }
  unfold fps. rewrite <- Hv.
  split; [eexists; repeat split|]; reflexivity.
Qed.

End RateMore.

(** ** Queues, the pump and its consumers *)

Section QueueMore.
Import Input.
Context {C : Type} (lib : libav C).
Implicit Types s : implementation C.

(** What a run of [read_file] appends to the two queues. *)
Lemma read_file_queues s :
  let rc := fst (fst (av_read_frame lib (format_context_ s))) in
  let p := snd (fst (av_read_frame lib (format_context_ s))) in
  let to_video := (0 <=? rc) && (stream_index p =? video_s_index_ s) in
  let to_audio := (0 <=? rc) && negb (stream_index p =? video_s_index_ s)
                  && (stream_index p =? audio_s_index_ s) in
  video_packet_buffer_ (read_file lib s) =
    video_packet_buffer_ s ++ (if to_video then [data p] else []) /\
  audio_packet_buffer_ (read_file lib s) =
    audio_packet_buffer_ s ++ (if to_audio then [data p] else []).
Proof.
  cbv zeta. unfold read_file.
  destruct (av_read_frame lib (format_context_ s)) as [[rc p] c]. cbn [fst snd].
  destruct (0 <=? rc); cbn [andb].
  - cbn [video_s_index_ audio_s_index_ with_format_context].
    destruct (stream_index p =? video_s_index_ s); cbn [negb andb].
    + cbn. now rewrite app_nil_r.
    + destruct (stream_index p =? audio_s_index_ s); cbn; now rewrite !app_nil_r.
  - destruct (loop_ (with_format_context c s)); cbn [negb].
    + rewrite seek_frame_eq. cbv zeta.
      match goal with |- context [negb ?b] => destruct b end;
        cbn; now rewrite !app_nil_r.
    + cbn. now rewrite !app_nil_r.
Qed.

Lemma read_file_configuration s :
  loop_ (read_file lib s) = loop_ s /\
  video_s_index_ (read_file lib s) = video_s_index_ s /\
  audio_s_index_ (read_file lib s) = audio_s_index_ s /\
  video_codec_context_ (read_file lib s) = video_codec_context_ s /\
  audio_codex_context_ (read_file lib s) = audio_codex_context_ s /\
  cond_ (read_file lib s) = cond_ s /\
  pending (executor_ (read_file lib s)) = S (pending (executor_ s)) /\
  implb (is_running (executor_ (read_file lib s))) (is_running (executor_ s)) = true.
Proof.
  unfold read_file.
  destruct (av_read_frame lib (format_context_ s)) as [[rc p] c].
  destruct (0 <=? rc).
  - cbn [video_s_index_ audio_s_index_ with_format_context].
    destruct (stream_index p =? video_s_index_ s);
      [|destruct (stream_index p =? audio_s_index_ s)];
      cbn; repeat split; destruct (is_running (executor_ s)); reflexivity.
  - destruct (loop_ (with_format_context c s)) eqn:El; cbn [negb].
    + rewrite seek_frame_eq. cbv zeta.
      match goal with |- context [negb ?b] => destruct b end;
        cbn; repeat split; destruct (is_running (executor_ s)); reflexivity.
    + cbn. repeat split.
Qed.

(** X22.  A run of [read_file] never removes or reorders queued packets:
    each queue afterwards is the queue before followed by what was
    appended, at most one packet in all, whatever the queue sizes.  The
    loop flag, the stream indices, the codec contexts and the condition are
    not touched, one more run is queued, and a stopped executor is not
    started again. *)
Theorem read_file_only_appends s :
  exists more_video more_audio,
    video_packet_buffer_ (read_file lib s) = video_packet_buffer_ s ++ more_video /\
    audio_packet_buffer_ (read_file lib s) = audio_packet_buffer_ s ++ more_audio /\
    (length more_video + length more_audio <= 1)%nat /\
    loop_ (read_file lib s) = loop_ s /\
    video_s_index_ (read_file lib s) = video_s_index_ s /\
    audio_s_index_ (read_file lib s) = audio_s_index_ s /\
    video_codec_context_ (read_file lib s) = video_codec_context_ s /\
    audio_codex_context_ (read_file lib s) = audio_codex_context_ s /\
    cond_ (read_file lib s) = cond_ s /\
    pending (executor_ (read_file lib s)) = S (pending (executor_ s)) /\
    implb (is_running (executor_ (read_file lib s))) (is_running (executor_ s)) = true.
Proof.
  destruct (read_file_queues s) as [Ev Ea].
  destruct (read_file_configuration s) as (E1 & E2 & E3 & E4 & E5 & E6 & E7 & E8).
  eexists _, _. split; [exact Ev|]. split; [exact Ea|].
  split; [|repeat split; assumption].
  destruct (0 <=? _); cbn [andb]; [|cbn; lia].
  destruct (_ =? video_s_index_ s); cbn [negb andb]; [cbn; lia|].
  destruct (_ =? audio_s_index_ s); cbn; lia.
Qed.

(** X23.  A packet read successfully whose stream index is neither the
    video nor the audio index is dropped: both queues and the running flag
    are as before. *)
Theorem read_file_drops_other_streams s :
  let rc := fst (fst (av_read_frame lib (format_context_ s))) in
  let p := snd (fst (av_read_frame lib (format_context_ s))) in
  0 <= rc ->
  stream_index p <> video_s_index_ s ->
  stream_index p <> audio_s_index_ s ->
  video_packet_buffer_ (read_file lib s) = video_packet_buffer_ s /\
  audio_packet_buffer_ (read_file lib s) = audio_packet_buffer_ s /\
  is_running (executor_ (read_file lib s)) = is_running (executor_ s) /\
  is_eof (read_file lib s) = is_eof s.
Proof.
  cbv zeta. intros Hrc Hv Ha.
  destruct (read_file_queues s) as [Ev Ea].
  apply Z.eqb_neq in Hv, Ha. rewrite Hv, Ha, !andb_false_r in *.
  cbn in Ev, Ea. rewrite app_nil_r in Ev, Ea.
  assert (Er : is_running (executor_ (read_file lib s)) = is_running (executor_ s)).
  { unfold read_file.
    destruct (av_read_frame lib (format_context_ s)) as [[rc p] c]. cbn [fst snd] in *.
    destruct (Z.leb_spec 0 rc); [|lia].
    cbn [video_s_index_ audio_s_index_ with_format_context].
    rewrite Hv, Ha. reflexivity. }
  unfold is_eof. rewrite Ev, Ea, Er. repeat split.
Qed.

Lemma get_packets_spec b n s :
  fst (get_packets b n s) =
    firstn n (buffer_of b s) ++ repeat [] (n - length (buffer_of b s)) /\
  buffer_of b (snd (get_packets b n s)) = skipn n (buffer_of b s) /\
  buffer_of (other b) (snd (get_packets b n s)) = buffer_of (other b) s /\
  cond_ (snd (get_packets b n s)) = (cond_ s + n)%nat /\
  executor_ (snd (get_packets b n s)) = executor_ s.
Proof.
  revert s. induction n as [|n IH]; intros s.
  - cbn. rewrite Nat.add_0_r. repeat split.
  - cbn [get_packets].
    pose proof (get_packet_pops_one s) as Hone. specialize (Hone b).
    destruct (get_packet b s) as [packet s1]. cbn [fst snd] in Hone.
    destruct Hone as (Hc & Hp & Hq & Ho & He).
    specialize (IH s1). destruct (get_packets b n s1) as [packets s2].
    cbn [fst snd] in *. destruct IH as (I1 & I2 & I3 & I4 & I5).
    rewrite I1, I2, I3, I4, I5, Hq, Ho, Hc, He, Hp.
    destruct (buffer_of b s) as [|x q]; cbn; repeat split; try lia.
    + now rewrite firstn_nil, Nat.sub_0_r.
    + now rewrite skipn_nil.
Qed.

(** X24.  Packets leave a queue in the order they entered it: [n] calls of
    [get_packet] return the first [n] queued packets in order, then the
    empty buffer for every call made on the emptied queue; the queue keeps
    the rest, the other queue is not touched, and the condition is notified
    once for every call. *)
Theorem get_packets_is_fifo b n s :
  fst (get_packets b n s) =
    firstn n (buffer_of b s) ++ repeat [] (n - length (buffer_of b s)) /\
  buffer_of b (snd (get_packets b n s)) = skipn n (buffer_of b s) /\
  buffer_of (other b) (snd (get_packets b n s)) = buffer_of (other b) s /\
  cond_ (snd (get_packets b n s)) = (cond_ s + n)%nat.
Proof.
  destruct (get_packets_spec b n s) as (E1 & E2 & E3 & E4 & _).
  repeat split; assumption.
Qed.

(** X25.  A packet that [read_file] reads for the video stream comes out of
    [get_video_packet] after the packets that were queued before it, with
    its payload unchanged; the same holds for the audio stream when the
    packet's index is the audio index and not the video index. *)
Theorem read_then_get_round_trip b s :
  let rc := fst (fst (av_read_frame lib (format_context_ s))) in
  let p := snd (fst (av_read_frame lib (format_context_ s))) in
  0 <= rc ->
  match b with
  | video_buffer => stream_index p = video_s_index_ s
  | audio_buffer => stream_index p <> video_s_index_ s /\
                    stream_index p = audio_s_index_ s
  end ->
  fst (get_packets b (S (length (buffer_of b s))) (read_file lib s))
  = buffer_of b s ++ [data p].
Proof.
  cbv zeta. intros Hrc Hb.
  destruct (read_file_queues s) as [Ev Ea].
  apply Z.leb_le in Hrc. rewrite Hrc in Ev, Ea. cbn [andb] in Ev, Ea.
  destruct (get_packets_spec b (S (length (buffer_of b s))) (read_file lib s))
    as (E & _).
  rewrite E. clear E.
  assert (Eq : buffer_of b (read_file lib s) =
               buffer_of b s ++ [data (snd (fst (av_read_frame lib (format_context_ s))))]).
  { destruct b; cbn [buffer_of].
    - rewrite Ev. apply Z.eqb_eq in Hb. now rewrite Hb.
    - rewrite Ea. destruct Hb as [Hv Ha].
      apply Z.eqb_neq in Hv. apply Z.eqb_eq in Ha. now rewrite Hv, Ha. }
  rewrite Eq.
  replace (S (length (buffer_of b s))) with (length (buffer_of b s ++ [data
    (snd (fst (av_read_frame lib (format_context_ s))))]))
    by (rewrite length_app; cbn; lia).
  rewrite firstn_all, Nat.sub_diag. cbn. now rewrite app_nil_r.
Qed.

Lemma step_after_stop s s' :
  is_running (executor_ s) = false -> step lib s s' ->
  is_running (executor_ s') = false /\
  (length (video_packet_buffer_ s') <= length (video_packet_buffer_ s))%nat /\
  (length (audio_packet_buffer_ s') <= length (audio_packet_buffer_ s))%nat.
Proof.
  intros Hstop Hstep. destruct Hstep as [s Hrun|b s]; [congruence|].
  destruct (get_packet_pops_one s b) as (_ & _ & Hq & Ho & He).
  rewrite He. split; [assumption|].
  destruct b; cbn [buffer_of other] in *; rewrite Hq, Ho;
    destruct (video_packet_buffer_ s), (audio_packet_buffer_ s); cbn; lia.
Qed.

Lemma steps_after_stop s s' :
  is_running (executor_ s) = false -> steps_to lib s s' ->
  is_running (executor_ s') = false /\
  (length (video_packet_buffer_ s') <= length (video_packet_buffer_ s))%nat /\
  (length (audio_packet_buffer_ s') <= length (audio_packet_buffer_ s))%nat.
Proof.
  intros Hstop Hsteps. induction Hsteps as [s|s1 s2 s3 H12 _ IH].
  - split; [assumption|split; lia].
  - destruct (step_after_stop _ _ Hstop H12) as (Hs & Hv & Ha).
    destruct (IH Hs) as (Hs' & Hv' & Ha'). repeat split; [assumption|lia|lia].
Qed.

(** X26.  Once the executor is stopped it stays stopped, and from then on
    no queue grows: whatever runs of [read_file] (performed only while the
    executor runs) and calls of [get_packet] follow, the running flag stays
    false and neither queue is longer than it was. *)
Theorem stopped_pump_queues_nothing s s' :
  is_running (executor_ s) = false ->
  steps_to lib s s' ->
  is_running (executor_ s') = false /\
  (length (video_packet_buffer_ s') <= length (video_packet_buffer_ s))%nat /\
  (length (audio_packet_buffer_ s') <= length (audio_packet_buffer_ s))%nat.
Proof. apply steps_after_stop. Qed.

(** X27.  [is_eof] does not revert: once it is true it stays true, whatever
    runs of [read_file] (performed only while the executor runs) and calls
    of [get_packet] follow, and every such call returns the empty buffer. *)
Theorem is_eof_is_final s s' b :
  is_eof s = true ->
  steps_to lib s s' ->
  is_eof s' = true /\ fst (get_packet b s') = [].
Proof.
  intros Heof Hsteps.
  unfold is_eof in Heof. apply andb_prop in Heof as [Heof Ha].
  apply andb_prop in Heof as [Hr Hv]. apply negb_true_iff in Hr.
  destruct (steps_after_stop _ _ Hr Hsteps) as (Hr' & Hv' & Ha').
  destruct (video_packet_buffer_ s); [|discriminate].
  destruct (audio_packet_buffer_ s); [|discriminate].
  destruct (get_packet_pops_one s' b) as (_ & Hp & _).
  rewrite Hp. unfold is_eof. rewrite Hr'.
  destruct (video_packet_buffer_ s') eqn:E1; [|cbn in Hv'; lia].
  destruct (audio_packet_buffer_ s') eqn:E2; [|cbn in Ha'; lia].
  split; [reflexivity|]. destruct b; cbn [buffer_of]; now rewrite ?E1, ?E2.
Qed.

Lemma read_files_video_only n s :
  (forall c, 0 <= fst (fst (av_read_frame lib c)) /\
             stream_index (snd (fst (av_read_frame lib c))) = video_s_index_ s) ->
  length (video_packet_buffer_ (read_files lib n s))
    = (length (video_packet_buffer_ s) + n)%nat /\
  audio_packet_buffer_ (read_files lib n s) = audio_packet_buffer_ s /\
  is_running (executor_ (read_files lib n s)) = is_running (executor_ s).
Proof.
  revert s. induction n as [|n IH]; intros s Hlib.
  - cbn. rewrite Nat.add_0_r. repeat split.
  - cbn [read_files].
    destruct (read_file_queues s) as [Ev Ea].
    destruct (read_file_configuration s) as (_ & Evi & _).
    destruct (Hlib (format_context_ s)) as [Hrc Hidx].
    apply Z.leb_le in Hrc. apply Z.eqb_eq in Hidx.
    rewrite Hrc, Hidx in Ev, Ea. cbn in Ev, Ea. rewrite app_nil_r in Ea.
    assert (Er : is_running (executor_ (read_file lib s)) = is_running (executor_ s)).
    { unfold read_file.
      destruct (av_read_frame lib (format_context_ s)) as [[rc p] c]. cbn [fst snd] in *.
      rewrite Hrc. cbn [video_s_index_ audio_s_index_ with_format_context].
      rewrite Hidx. reflexivity. }
    destruct (IH (read_file lib s)) as (I1 & I2 & I3).
    { intros c. rewrite Evi. apply Hlib. }
    rewrite I1, I2, I3, Ev, Ea, Er, length_app. cbn. repeat split. lia.
Qed.

(** X28.  Backpressure needs both queues over capacity.  With a source that
    only ever yields video packets the audio queue stays as it is, so if it
    holds at most 50 packets the pump never has to wait, while every run of
    [read_file] makes the video queue one packet longer, without bound. *)
Theorem video_only_source_never_waits n s :
  (forall c, 0 <= fst (fst (av_read_frame lib c)) /\
             stream_index (snd (fst (av_read_frame lib c))) = video_s_index_ s) ->
  Z.of_nat (length (audio_packet_buffer_ s)) <= PACKET_BUFFER_COUNT ->
  length (video_packet_buffer_ (read_files lib n s))
    = (length (video_packet_buffer_ s) + n)%nat /\
  audio_packet_buffer_ (read_files lib n s) = audio_packet_buffer_ s /\
  must_wait (read_files lib n s) = false.
Proof.
  intros Hlib Ha. destruct (read_files_video_only n s Hlib) as (E1 & E2 & E3).
  split; [exact E1|]. split; [exact E2|].
  unfold must_wait. rewrite E2.
  destruct (Z.ltb_spec PACKET_BUFFER_COUNT (Z.of_nat (length (audio_packet_buffer_ s))));
    [lia|]. now rewrite andb_false_r.
Qed.



End QueueMore.

(** ** The further properties on the container in memory *)

Section ClipMore.
Import Input Clip.

Lemma open_stream_takes_first_of_type_witness :
  let c := sample true in
  streams (lib c) c = [Some (mk_stream 0 video_context)]
                        ++ Some (mk_stream 1 audio_context) :: [] /\
  Forall (not_of_type CODEC_TYPE_AUDIO) [Some (mk_stream 0 video_context)] /\
  codec_type (codec (mk_stream 1 audio_context)) = CODEC_TYPE_AUDIO /\
  open_stream (lib c) c CODEC_TYPE_AUDIO (-1) = (Some audio_context, 1).
Proof.
  intros c.
  assert (H1 : streams (lib c) c = [Some (mk_stream 0 video_context)]
                 ++ Some (mk_stream 1 audio_context) :: []) by reflexivity.
  assert (H2 : Forall (not_of_type CODEC_TYPE_AUDIO) [Some (mk_stream 0 video_context)])
    by (repeat constructor; discriminate).
  assert (H3 : codec_type (codec (mk_stream 1 audio_context)) = CODEC_TYPE_AUDIO)
    by reflexivity.
  exact (conj H1 (conj H2 (conj H3
    (open_stream_takes_first_of_type (lib c) c CODEC_TYPE_AUDIO (-1) _ _ _ H1 H2 H3)))).
Defined.

Lemma open_stream_without_stream_of_type_witness :
  let c := sample true in
  Forall (not_of_type 3) (streams (lib c) c) /\
  open_stream (lib c) c 3 (-1) = (None, -1).
Proof.
  intros c.
  assert (H1 : Forall (not_of_type 3) (streams (lib c) c))
    by (repeat constructor; discriminate).
  exact (conj H1 (open_stream_without_stream_of_type (lib c) c 3 (-1) H1)).
Defined.

Lemma failed_iff_negative_witness :
  Int.INT_MIN < -2 <= Int.INT_MAX /\ (failed (-2) = true <-> -2 < 0).
Proof.
  assert (H1 : Int.INT_MIN < -2 <= Int.INT_MAX) by (unfold Int.INT_MIN, Int.INT_MAX; lia).
  exact (conj H1 (failed_iff_negative (-2) H1)).
Defined.

Lemma constructed_object_keeps_its_contexts_witness :
  let l := lib (sample true) in
  let s0 := built l (sample true) true in
  let s := snd (get_packet video_buffer (read_file l s0)) in
  construct l [] "sample" true = Returned s0 /\
  steps_to l s0 s /\
  (video_codec_context_ s <> None \/ audio_codex_context_ s <> None) /\
  loop_ s = true.
Proof.
  intros l s0 s.
  assert (H1 : construct l [] "sample" true = Returned s0) by reflexivity.
  assert (H2 : steps_to l s0 s).
  { eapply steps_next; [apply step_read; reflexivity|].
    eapply steps_next; [apply step_get|apply steps_refl]. }
  destruct (constructed_object_keeps_its_contexts l [] "sample" true s0 s H1 H2)
    as (E1 & _ & _ & _ & _ & E2).
  exact (conj H1 (conj H2 (conj E1 E2))).
Defined.

Lemma construct_throws_without_streams_witness :
  let c := mk_clip [] [] 0 true in
  failed (fst (av_open_input_file (lib c) "sample")) = false /\
  failed (fst (av_find_stream_info (lib c) (snd (av_open_input_file (lib c) "sample")))) = false /\
  construct (lib c) [] "sample" false =
    Thrown (file_read_error "No video or audio codec context found.").
Proof.
  intros c.
  assert (H1 : failed (fst (av_open_input_file (lib c) "sample")) = false) by reflexivity.
  assert (H2 : failed (fst (av_find_stream_info (lib c)
                  (snd (av_open_input_file (lib c) "sample")))) = false) by reflexivity.
  assert (H3 : forall type, Forall (not_of_type type)
                  (streams (lib c) (snd (av_find_stream_info (lib c)
                     (snd (av_open_input_file (lib c) "sample"))))))
    by (intros type; constructor).
  exact (conj H1 (conj H2
    (construct_throws_without_streams (lib c) [] "sample" false H1 H2
       (H3 CODEC_TYPE_VIDEO) (H3 CODEC_TYPE_AUDIO)))).
Defined.

Lemma construct_keeps_audio_time_base_witness :
  let l := lib (sample true) in
  let s := built l (sample true) true in
  construct l [] "sample" true = Returned s /\
  audio_codex_context_ s = Some audio_context /\
  video_codec_context_ s <> Some video_context.
Proof.
  intros l s.
  assert (H1 : construct l [] "sample" true = Returned s) by reflexivity.
  destruct (construct_keeps_audio_time_base l [] "sample" true s H1) as (E & _).
  refine (conj H1 (conj _ _)).
  - change (Some audio_context) with
      (fst (open_stream l (format_context_ s) CODEC_TYPE_AUDIO (-1))).
    rewrite E. reflexivity.
  - vm_compute. discriminate.
Defined.

Lemma repaired_rate_has_two_digits_witness :
  let s := built (lib (sample true)) (sample true) true in
  num (time_base video_context) = 1 /\
  10 <= den (time_base video_context) <= 999999 /\
  fix_time_base (Some video_context) = Returned (video_codec_context_ s) /\
  exists q, fps s = Returned (finite q) /\ (10 <= q)%Q /\ (q < 100)%Q.
Proof.
  intros s.
  assert (H1 : num (time_base video_context) = 1) by reflexivity.
  assert (H2 : 10 <= den (time_base video_context) <= 999999)
    by (cbn; lia).
  assert (H3 : fix_time_base (Some video_context) = Returned (video_codec_context_ s))
    by reflexivity.
  exact (conj H1 (conj H2 (conj H3 (repaired_rate_has_two_digits s video_context H1 H2 H3)))).
Defined.

Lemma one_digit_denominator_loses_the_rate_witness :
  let c := mk_codec_context CODEC_TYPE_VIDEO 13 (mk_rational 1 5) in
  let s := mk_impl [] (sample true)
             (Some (mk_codec_context CODEC_TYPE_VIDEO 13 (mk_rational 0 5))) None
             false 0 (-1) [] [] 0%nat (mk_executor true 1) in
  num (time_base c) = 1 /\ 1 <= den (time_base c) <= 9 /\
  fix_time_base (Some c) = Returned (video_codec_context_ s) /\
  fps s = Returned not_finite.
Proof.
  intros c s.
  assert (H1 : num (time_base c) = 1) by reflexivity.
  assert (H2 : 1 <= den (time_base c) <= 9) by (cbn; lia).
  assert (H3 : fix_time_base (Some c) = Returned (video_codec_context_ s)) by reflexivity.
  destruct (one_digit_denominator_loses_the_rate s c H1 H2 H3) as (_ & E).
  exact (conj H1 (conj H2 (conj H3 E))).
Defined.

Lemma read_file_drops_other_streams_witness :
  let l := lib with_other_stream in
  let s := built l with_other_stream false in
  0 <= fst (fst (av_read_frame l (format_context_ s))) /\
  stream_index (snd (fst (av_read_frame l (format_context_ s)))) <> video_s_index_ s /\
  stream_index (snd (fst (av_read_frame l (format_context_ s)))) <> audio_s_index_ s /\
  video_packet_buffer_ (read_file l s) = [] /\
  audio_packet_buffer_ (read_file l s) = [].
Proof.
  intros l s.
  assert (H1 : 0 <= fst (fst (av_read_frame l (format_context_ s))))
    by (vm_compute; discriminate).
  assert (H2 : stream_index (snd (fst (av_read_frame l (format_context_ s))))
               <> video_s_index_ s) by (vm_compute; discriminate).
  assert (H3 : stream_index (snd (fst (av_read_frame l (format_context_ s))))
               <> audio_s_index_ s) by (vm_compute; discriminate).
  destruct (read_file_drops_other_streams l s H1 H2 H3) as (E1 & E2 & _).
  exact (conj H1 (conj H2 (conj H3 (conj E1 E2)))).
Defined.

Lemma read_then_get_round_trip_witness :
  let l := lib (sample true) in
  let s := read_file l (read_file l (built l (sample true) false)) in
  0 <= fst (fst (av_read_frame l (format_context_ s))) /\
  stream_index (snd (fst (av_read_frame l (format_context_ s)))) = video_s_index_ s /\
  fst (get_packets video_buffer 2 (read_file l s)) = [[Byte.x61]; [Byte.x63]].
Proof.
  intros l s.
  assert (H1 : 0 <= fst (fst (av_read_frame l (format_context_ s))))
    by (vm_compute; discriminate).
  assert (H2 : stream_index (snd (fst (av_read_frame l (format_context_ s))))
               = video_s_index_ s) by reflexivity.
  exact (conj H1 (conj H2 (read_then_get_round_trip l video_buffer s H1 H2))).
Defined.

Lemma stopped_pump_queues_nothing_witness :
  let l := lib (sample true) in
  let s := read_file l (drained true false) in
  let s' := snd (get_packet video_buffer s) in
  is_running (executor_ s) = false /\
  steps_to l s s' /\
  is_running (executor_ s') = false /\
  (length (video_packet_buffer_ s') <= length (video_packet_buffer_ s))%nat.
Proof.
  intros l s s'.
  assert (H1 : is_running (executor_ s) = false) by reflexivity.
  assert (H2 : steps_to l s s').
  { eapply steps_next; [apply step_get|apply steps_refl]. }
  destruct (stopped_pump_queues_nothing l s s' H1 H2) as (E1 & E2 & _).
  exact (conj H1 (conj H2 (conj E1 E2))).
Defined.

Lemma is_eof_is_final_witness :
  let l := lib (sample true) in
  let s := snd (get_packets audio_buffer 1
                  (snd (get_packets video_buffer 2 (read_file l (drained true false))))) in
  let s' := snd (get_packet audio_buffer s) in
  is_eof s = true /\ steps_to l s s' /\
  is_eof s' = true /\ fst (get_packet video_buffer s') = [].
Proof.
  intros l s s'.
  assert (H1 : is_eof s = true) by reflexivity.
  assert (H2 : steps_to l s s').
  { eapply steps_next; [apply step_get|apply steps_refl]. }
  exact (conj H1 (conj H2 (is_eof_is_final l s s' video_buffer H1 H2))).
Defined.

Lemma video_only_source_never_waits_witness :
  let s := built endless tt false in
  (forall c, 0 <= fst (fst (av_read_frame endless c)) /\
             stream_index (snd (fst (av_read_frame endless c))) = video_s_index_ s) /\
  Z.of_nat (length (audio_packet_buffer_ s)) <= PACKET_BUFFER_COUNT /\
  length (video_packet_buffer_ (read_files endless 60 s)) = 60%nat /\
  must_wait (read_files endless 60 s) = false.
Proof.
  intros s.
  assert (H1 : forall c, 0 <= fst (fst (av_read_frame endless c)) /\
                         stream_index (snd (fst (av_read_frame endless c)))
                         = video_s_index_ s).
  { intros c. split; [cbn; lia|reflexivity]. }
  assert (H2 : Z.of_nat (length (audio_packet_buffer_ s)) <= PACKET_BUFFER_COUNT)
    by (vm_compute; discriminate).
  destruct (video_only_source_never_waits endless 60 s H1 H2) as (E1 & _ & E3).
  exact (conj H1 (conj H2 (conj E1 E3))).
Defined.

End ClipMore.

(** ** What an interlaced tick hands to the image mixer *)

Section InterlacedTick.
Context `{Tweeners} {I A : Type} `{!Transform I} `{!Transform A}.
Implicit Types (s : mixer I A) (f : basic_frame).

Lemma for_each_cons_fst {B} (body : basic_frame -> M B) f l s :
  fst (for_each body (f :: l) s) =
  fst (body f s) :: fst (for_each body l (snd (body f s))).
Proof.
  cbn [for_each]. unfold mbind, M_bind.
  destruct (body f s) as [b s1]. cbn [fst snd].
  destruct (for_each body l s1) as [bs s2]. reflexivity.
Qed.

Lemma for_each_app {B} (body : basic_frame -> M B) l1 l2 s :
  fst (for_each body (l1 ++ l2) s) =
    fst (for_each body l1 s) ++ fst (for_each body l2 (snd (for_each body l1 s))) /\
  snd (for_each body (l1 ++ l2) s) = snd (for_each body l2 (snd (for_each body l1 s))).
Proof.
  revert s. induction l1 as [|f l1 IH]; intros s; [split; reflexivity|].
  cbn [app]. rewrite !for_each_cons_fst, !for_each_cons.
  destruct (IH (snd (body f s))) as [-> ->]. split; reflexivity.
Qed.

Lemma tick_ticks {T} `{!Transform T} (t : tweened_transform T) num k :
  tick num (ticks num k t) = ticks num (k + 1) t.
Proof. now rewrite ticks_add. Qed.

(** C8.  In a tick in an interlaced mode, the image mixer accepts exactly
    one item for each surviving frame, in order.  For the surviving frame
    [f] at position [i], with [c] earlier surviving frames on its layer,
    two child frames A and B are made: A's transform is the product of the
    root tween after [2i + 1] ticks and the layer tween after [2c + 1]
    ticks, B's the product after [2i + 2] and [2c + 2] ticks, each
    evaluated on its own.  If the two transforms differ, the item accepted
    at position [i] is A and B interlaced into one frame in the mixer's
    mode; otherwise it is B alone, and A is discarded. *)
Theorem interlaced_tick_accepts_pairs s frames pre f post :
  is_progressive (format_desc_mode s) = false ->
  remove_empty_eof frames = pre ++ f :: post ->
  let i := length pre in
  let c := length (List.filter (fun g => get_layer_index g =? get_layer_index f) pre) in
  let root k := fetch (ticks 1 k (root_image_transform_ s)) in
  let layer k := fetch (ticks 1 k (entry (image_transforms_ s) (get_layer_index f))) in
  let tA := transform_mul (root (2 * i + 1)%nat) (layer (2 * c + 1)%nat) in
  let tB := transform_mul (root (2 * i + 2)%nat) (layer (2 * c + 2)%nat) in
  nth_error (fst (fst (send frames s))) i =
    Some (if transform_neq tA tB
          then interlaced_item (mk_child f tA) (mk_child f tB) (format_desc_mode s)
          else single_item (mk_child f tB)) /\
  length (fst (fst (send frames s))) = length (remove_empty_eof frames).
Proof.
  intros Hmode Hsplit i c root layer tA tB.
  destruct (send_splits frames s) as (Es & _). rewrite Es. cbn [fst].
  split; [|apply for_each_length].
  unfold mix_image. rewrite Hsplit.
  destruct (for_each_app mix_image_frame pre (f :: post) s) as [E _]. rewrite E.
  rewrite nth_error_app2 by (rewrite for_each_length; subst i; lia).
  rewrite for_each_length. subst i. rewrite Nat.sub_diag.
  set (s1 := snd (for_each mix_image_frame pre s)).
  assert (Em : format_desc_mode s1 = format_desc_mode s) by apply for_each_image_mode.
  assert (Er : root_image_transform_ s1 = ticks 1 (2 * length pre) (root_image_transform_ s)).
  { subst s1. rewrite for_each_image_root. unfold steps. rewrite Hmode.
    f_equal. change (Z.to_nat 2) with 2%nat. lia. }
  assert (El : entry (image_transforms_ s1) (get_layer_index f) =
               ticks 1 (2 * c) (entry (image_transforms_ s) (get_layer_index f))).
  { subst s1 c. rewrite for_each_image_entry. unfold steps. rewrite Hmode.
    f_equal. change (Z.to_nat 2) with 2%nat. lia. }
  rewrite for_each_cons_fst. cbn [nth_error]. f_equal.
  pose proof (mix_image_frame_eq f s1) as Ef.
  rewrite Em, Hmode in Ef. cbn [negb] in Ef. cbv zeta in Ef.
  rewrite !image_evaluation_eq in Ef.
  cbn [fst snd image_transforms_ with_image_transforms with_root_image
       root_image_transform_] in Ef.
  rewrite entry_insert, Er, El, !tick_ticks in Ef.
  replace (2 * length pre + 1 + 1)%nat with (2 * length pre + 2)%nat in Ef by lia.
  replace (2 * c + 1 + 1)%nat with (2 * c + 2)%nat in Ef by lia.
  rewrite Ef. reflexivity.
Qed.

End InterlacedTick.

Section InterlacedTickRun.
Import Scalar.

Lemma interlaced_tick_accepts_pairs_witness :
  let s := started upper in
  let frames := [data_frame 0 1; empty_frame; data_frame 0 2] in
  is_progressive (format_desc_mode s) = false /\
  remove_empty_eof frames = [data_frame 0 1] ++ data_frame 0 2 :: [] /\
  exists a b,
    nth_error (fst (fst (send frames s))) 1 =
      Some (interlaced_item (mk_child (data_frame 0 2) a) (mk_child (data_frame 0 2) b) upper) /\
    (a == fetch (ticks 1 3 (root_image_transform_ s)) * 1)%Q /\
    (b == fetch (ticks 1 4 (root_image_transform_ s)) * 1)%Q /\
    length (fst (fst (send frames s))) = 2%nat.
Proof.
  intros s frames.
  assert (H1 : is_progressive (format_desc_mode s) = false) by reflexivity.
  assert (H2 : remove_empty_eof frames = [data_frame 0 1] ++ data_frame 0 2 :: [])
    by reflexivity.
  destruct (interlaced_tick_accepts_pairs s frames _ _ _ H1 H2) as (E1 & E2).
  split; [exact H1|]. split; [exact H2|].
  eexists _, _. split; [exact E1|].
  split; [reflexivity|]. split; [reflexivity|exact E2].
Defined.

End InterlacedTickRun.

(** ** The consumers' calls and the waiting pump *)

Section ConsumerCalls.
Import Input.
Context {C : Type}.
Implicit Types s : implementation C.

Lemma get_packet_statements b s : get_packet b s = try_pop b (notified s).
Proof. reflexivity. Qed.

Lemma must_wait_after_pop b s :
  must_wait (snd (get_packet b s)) =
  must_wait s && (PACKET_BUFFER_COUNT + 1 <? Z.of_nat (length (buffer_of b s))).
Proof.
  unfold get_packet, must_wait, PACKET_BUFFER_COUNT.
  destruct b, s as [g c v a l vi ai vq aq n e]; cbn [buffer_of];
    [destruct vq as [|p vq]|destruct aq as [|p aq]];
    cbn -[Z.ltb Z.of_nat Z.add]; destruct (is_running e); cbn [andb];
    rewrite ?andb_false_r; try reflexivity;
    repeat match goal with |- context [?x <? ?y] => destruct (Z.ltb_spec x y) end;
    cbn [length] in *; try reflexivity; lia.
Qed.

(** C9.  [get_video_packet] takes the front packet of the video queue and
    [get_audio_packet] that of the audio queue, one packet at most, and
    neither touches the other queue; on an empty queue the call returns the
    empty buffer.  Each call notifies the condition once, which wakes a pump
    blocked in the wait.  The notification is the first statement of the
    call: a woken pump that tests its condition after the call goes on
    unless both queues are still above the capacity, and one that tests it
    between the notification and the pop finds the queues as they were. *)
Theorem get_video_and_audio_packet s :
  let v := get_video_packet s in
  let a := get_audio_packet s in
  (fst v = List.hd [] (video_packet_buffer_ s) /\
   video_packet_buffer_ (snd v) = List.tl (video_packet_buffer_ s) /\
   audio_packet_buffer_ (snd v) = audio_packet_buffer_ s /\
   cond_ (snd v) = S (cond_ s) /\
   v = try_pop video_buffer (notified s)) /\
  (fst a = List.hd [] (audio_packet_buffer_ s) /\
   audio_packet_buffer_ (snd a) = List.tl (audio_packet_buffer_ s) /\
   video_packet_buffer_ (snd a) = video_packet_buffer_ s /\
   cond_ (snd a) = S (cond_ s) /\
   a = try_pop audio_buffer (notified s)) /\
  notify_all pump_waits = pump_woken /\
  retest (notify_all pump_waits) (snd v) =
    (if must_wait s
        && (PACKET_BUFFER_COUNT + 1 <? Z.of_nat (length (video_packet_buffer_ s)))
     then pump_waits else pump_runs) /\
  retest (notify_all pump_waits) (snd a) =
    (if must_wait s
        && (PACKET_BUFFER_COUNT + 1 <? Z.of_nat (length (audio_packet_buffer_ s)))
     then pump_waits else pump_runs) /\
  retest (notify_all pump_waits) (notified s) =
    (if must_wait s then pump_waits else pump_runs).
Proof.
  cbv zeta. unfold get_video_packet, get_audio_packet.
  destruct (get_packet_pops_one s video_buffer) as (V1 & V2 & V3 & V4 & _).
  destruct (get_packet_pops_one s audio_buffer) as (A1 & A2 & A3 & A4 & _).
  cbn [buffer_of other] in *.
  split; [repeat split; assumption|]. split; [repeat split; assumption|].
  split; [reflexivity|]. cbn [notify_all retest].
  rewrite (must_wait_after_pop video_buffer s), (must_wait_after_pop audio_buffer s).
  repeat split.
Qed.

(** A pump woken by the call that held exactly one packet more than the
    capacity in the queue being read goes on after the call. *)
Example pop_at_capacity_plus_one_resumes s :
  must_wait s = true ->
  Z.of_nat (length (video_packet_buffer_ s)) = PACKET_BUFFER_COUNT + 1 ->
  retest (notify_all pump_waits) (snd (get_video_packet s)) = pump_runs /\
  retest (notify_all pump_waits) (notified s) = pump_waits.
Proof.
  intros Hw Hl. cbn [notify_all retest]. unfold get_video_packet.
  rewrite (must_wait_after_pop video_buffer s), Hw. cbn [buffer_of]. rewrite Hl.
  rewrite Z.ltb_irrefl. split; [reflexivity|].
  unfold notified, must_wait in *. cbn. now rewrite Hw.
Qed.

End ConsumerCalls.
